(** * mac_changer.py: a model of the MAC changer and its properties

    The program is a single Python module.  Its pure parts (vendor lookup,
    address formatting, the format check of the command line) are embedded
    as Rocq functions on ASCII strings.  Its effectful parts (shell
    commands, the backup file, the random source, the clock, the terminal)
    run in a small state-and-exception monad over a [World] that records
    what the program did and answers what the host would answer. *)

From Stdlib Require Import ZArith String Ascii DecimalString List Lia.
From stdpp Require Import gmap strings list fin_maps.
Import ListNotations.

Set Warnings "-register-all".
Local Open Scope string_scope.

(* ===================================================================== *)
(** ** Python strings (ASCII text) *)
(* ===================================================================== *)

Module PyStr.

(** The one-character string holding a line feed. *)
Definition LF : ascii := ascii_of_nat 10.
Definition newline : string := String LF EmptyString.

Definition is_ascii_upper (c : ascii) : bool :=
  let n := nat_of_ascii c in (65 <=? n)%nat && (n <=? 90)%nat.

Definition is_ascii_lower (c : ascii) : bool :=
  let n := nat_of_ascii c in (97 <=? n)%nat && (n <=? 122)%nat.

Definition ascii_lower (c : ascii) : ascii :=
  if is_ascii_upper c then ascii_of_nat (nat_of_ascii c + 32) else c.

Definition ascii_upper (c : ascii) : ascii :=
  if is_ascii_lower c then ascii_of_nat (nat_of_ascii c - 32) else c.

(** [str.lower()] and [str.upper()] on ASCII text. *)
Fixpoint lower (s : string) : string :=
  match s with
  | EmptyString => EmptyString
  | String c s' => String (ascii_lower c) (lower s')
  end.

Fixpoint upper (s : string) : string :=
  match s with
  | EmptyString => EmptyString
  | String c s' => String (ascii_upper c) (upper s')
  end.

(** [s.split(sep)] for a one-character separator: never the empty list,
    and the empty string splits into one empty field. *)
Fixpoint split (sep : ascii) (s : string) : list string :=
  match s with
  | EmptyString => [EmptyString]
  | String c s' =>
      if Ascii.eqb c sep then EmptyString :: split sep s'
      else match split sep s' with
           | [] => [String c EmptyString]
           | h :: t => String c h :: t
           end
  end.

(** [sep.join(l)]. *)
Fixpoint join (sep : string) (l : list string) : string :=
  match l with
  | [] => EmptyString
  | x :: rest =>
      match rest with
      | [] => x
      | _ :: _ => x +:+ sep +:+ join sep rest
      end
  end.

(** [a in b] for two strings: [a] occurs in [b] as a substring. *)
Fixpoint contains (a b : string) : bool :=
  String.prefix a b ||
  match b with
  | EmptyString => false
  | String _ b' => contains a b'
  end.

(** Lowercase hexadecimal digits of a number, most significant first
    (the [x] presentation type of the format mini-language). *)
Definition hex_digit (d : nat) : ascii :=
  nth d (list_ascii_of_string "0123456789abcdef") "0"%char.

Fixpoint hex_digits (fuel n : nat) (acc : string) : string :=
  match fuel with
  | O => acc
  | S fuel' =>
      let acc' := String (hex_digit (n mod 16)) acc in
      if (n / 16 =? 0)%nat then acc' else hex_digits fuel' (n / 16) acc'
  end.

Definition format_x (n : nat) : string := hex_digits (S n) n EmptyString.

(** Zero padding on the left up to [width] characters. *)
Definition zero_pad (width : nat) (s : string) : string :=
  string_of_list_ascii (repeat "0"%char (width - String.length s)) +:+ s.

(** [f"{n:02x}"]. *)
Definition format_02x (n : nat) : string := zero_pad 2 (format_x n).

(** Whether a sequence of bytes is well-formed UTF-8, which is what
    [bytes.decode()] accepts: one byte below 0x80; a lead byte 0xC2-0xDF
    and one continuation byte; a lead byte 0xE0-0xEF and two; a lead byte
    0xF0-0xF4 and three; with the second byte narrowed after 0xE0, 0xED,
    0xF0 and 0xF4 (no overlong form, no surrogate, nothing above
    U+10FFFF). *)
Definition byte_in (lo hi : nat) (c : ascii) : bool :=
  let n := nat_of_ascii c in (lo <=? n)%nat && (n <=? hi)%nat.

Definition lead_length (c : ascii) : nat :=
  if byte_in 0 127 c then 1
  else if byte_in 194 223 c then 2
  else if byte_in 224 239 c then 3
  else if byte_in 240 244 c then 4
  else 0.

Definition second_byte_ok (lead c : ascii) : bool :=
  match nat_of_ascii lead with
  | 224 => byte_in 160 191 c
  | 237 => byte_in 128 159 c
  | 240 => byte_in 144 191 c
  | 244 => byte_in 128 143 c
  | _ => byte_in 128 191 c
  end.

Fixpoint utf8_valid (s : string) : bool :=
  match s with
  | EmptyString => true
  | String c0 r0 =>
      match lead_length c0 with
      | 1 => utf8_valid r0
      | 2 =>
          match r0 with
          | String c1 r1 => second_byte_ok c0 c1 && utf8_valid r1
          | _ => false
          end
      | 3 =>
          match r0 with
          | String c1 (String c2 r2) =>
              second_byte_ok c0 c1 && byte_in 128 191 c2 && utf8_valid r2
          | _ => false
          end
      | 4 =>
          match r0 with
          | String c1 (String c2 (String c3 r3)) =>
              second_byte_ok c0 c1 && byte_in 128 191 c2 && byte_in 128 191 c3
              && utf8_valid r3
          | _ => false
          end
      | _ => false
      end
  end.

(** Two strings that differ only in the case of their ASCII letters:
    same length and, position by position, the same character or the
    two cases of one letter. *)
Definition same_letter (a b : ascii) : Prop :=
  a = b \/ (is_ascii_upper a = true /\ b = ascii_lower a)
        \/ (is_ascii_lower a = true /\ b = ascii_upper a).

Inductive case_variant : string -> string -> Prop :=
  | cv_nil : case_variant EmptyString EmptyString
  | cv_cons a b s t :
      same_letter a b -> case_variant s t ->
      case_variant (String a s) (String b t).

End PyStr.

(* ===================================================================== *)
(** ** Constants, vendor lookup and the address format *)
(* ===================================================================== *)

Definition MAC_BACKUP_FILE : string := "mac_backup.json".

(** The dictionary literal, in insertion order (the order of [keys()]). *)
Definition VENDOR_PREFIXES : list (string * string) :=
  [ ("00:14:22", "Dell");
    ("00:40:96", "Cisco");
    ("AC:DE:48", "Private") ].

(** [d.keys()] and [d.get(key, default)] on a dictionary literal. *)
Definition dict_keys (d : list (string * string)) : list string := map fst d.

Fixpoint dict_get (d : list (string * string)) (key default : string) : string :=
  match d with
  | [] => default
  | (k, v) :: d' => if String.eqb k key then v else dict_get d' key default
  end.

Definition get_vendor (mac : string) : string :=
  let prefix := PyStr.join ":" (take 3 (PyStr.split ":" (PyStr.upper mac))) in
  dict_get VENDOR_PREFIXES prefix "Unknown".

(** The character class [[0-9A-Fa-f]]. *)
Definition is_hex (c : ascii) : bool :=
  let n := nat_of_ascii c in
  ((48 <=? n)%nat && (n <=? 57)%nat) ||
  ((65 <=? n)%nat && (n <=? 70)%nat) ||
  ((97 <=? n)%nat && (n <=? 102)%nat).

(** [[0-9A-Fa-f]{2}]: consume two hex digits, give back the rest. *)
Definition match_hex2 (s : string) : option string :=
  match s with
  | String a (String b rest) => if is_hex a && is_hex b then Some rest else None
  | _ => None
  end.

(** [([0-9A-Fa-f]{2}:){n}]. *)
Fixpoint match_hex2_colon (n : nat) (s : string) : option string :=
  match n with
  | O => Some s
  | S n' =>
      match match_hex2 s with
      | Some (String ":" rest) => match_hex2_colon n' rest
      | _ => None
      end
  end.

(** The anchor [$] outside multi-line mode: the end of the string, or the
    position just before a line feed that is the last character. *)
Definition at_dollar (rest : string) : bool :=
  match rest with
  | EmptyString => true
  | String c EmptyString => Ascii.eqb c PyStr.LF
  | _ => false
  end.

(** [re.match(r"^([0-9A-Fa-f]{2}:){5}[0-9A-Fa-f]{2}$", mac)] as a truth
    value. *)
Definition mac_format_match (mac : string) : bool :=
  match match_hex2_colon 5 mac with
  | Some rest =>
      match match_hex2 rest with
      | Some rest' => at_dollar rest'
      | None => false
      end
  | None => false
  end.

(** What the format is meant to be: six fields of two hexadecimal digits,
    joined by colons. *)
Definition hex_pair (p : string) : Prop :=
  exists a b, is_hex a = true /\ is_hex b = true /\ p = String a (String b EmptyString).

Definition six_hex_pairs (s : string) : Prop :=
  exists ps, length ps = 6%nat /\ Forall hex_pair ps /\ s = PyStr.join ":" ps.

(* ===================================================================== *)
(** ** Values, exceptions and the host *)
(* ===================================================================== *)

(** What [json.load] returns.  An object is a Python [dict] with string
    keys: a finite map.  A number keeps its literal, which the program
    never inspects. *)
Inductive json :=
  | JNull
  | JBool (b : bool)
  | JNum (lit : string)
  | JStr (s : string)
  | JArr (items : list json)
  | JObj (fields : gmap string json).

(** The exceptions that reach the program's handlers. *)
Inductive exn :=
  | KeyboardInterrupt
  | CalledProcessError (status : Z)
  | OSError (msg : string)
  | JSONDecodeError (msg : string)
  | TypeError
  | KeyError (key : string)
  | AttributeError
  | ValueError
  | UnicodeDecodeError
  | OverflowError
  | IndexError
  | EOFError.

(** [except Exception] catches everything but the interrupt; a bare
    [except:] catches everything; [except KeyboardInterrupt] and
    [except ValueError] catch their own class ([JSONDecodeError] and
    [UnicodeDecodeError] are subclasses of [ValueError]). *)
Definition is_Exception (e : exn) : bool :=
  match e with KeyboardInterrupt => false | _ => true end.

Definition is_anything (e : exn) : bool := true.

Definition is_KeyboardInterrupt (e : exn) : bool :=
  match e with KeyboardInterrupt => true | _ => false end.

Definition is_ValueError (e : exn) : bool :=
  match e with
  | ValueError | JSONDecodeError _ | UnicodeDecodeError => true
  | _ => false
  end.

(** How one shell command ends: it exits with a status after writing the
    bytes of its standard output; the shell cannot be spawned; or the
    wait for it is interrupted from the keyboard. *)
Inductive ProcResult :=
  | Exited (status : Z) (stdout : string)
  | SpawnFailed (msg : string)
  | Interrupted.

(** The backup file [mac_backup.json]: missing; present but not loadable
    (it cannot be opened, or it is not JSON); or holding a document. *)
Inductive ReadError :=
  | CannotOpen (msg : string)
  | NotJSON (msg : string).

Inductive BackupFile :=
  | NoFile
  | Unreadable (why : ReadError)
  | Holds (doc : json).

(** How writing the backup file fails: [open(..., "w")] refuses, and the
    file stays as it was; or the write breaks off after the file was
    opened, which has emptied it: what is left is not a JSON document,
    and [later] is the text of the error that loading it gives. *)
Inductive WriteFailure :=
  | OpenRefused (msg : string)
  | DumpBroken (msg : string) (later : string).

(** What [int(input(prompt))] yields for one line typed at the prompt. *)
Inductive Typed :=
  | Number (n : Z)
  | NotANumber
  | EndOfInput
  | CtrlC.

(** The host.  [steps] counts the interactions so far; the host's answers
    ([sh], [rnd], [clock], [sigint], [stdin]) depend on it, so the host
    may answer the same question differently at different times.  [cmds]
    and [out] record, oldest first, the shell commands run and the texts
    written to the terminal.  The keyboard interrupt reaches the program
    where it blocks: while it waits for a command ([Interrupted]), while
    it sleeps ([sigint]) and at the prompt ([CtrlC]).  An interrupt that
    arrives while the program computes between two of these points is
    outside this model. *)
Record World := mkWorld {
  steps : nat;
  sh : nat -> string -> ProcResult;
  rnd : nat -> nat;
  clock : nat -> string;
  sigint : nat -> bool;
  stdin : nat -> Typed;
  write_error : option WriteFailure;
  file : BackupFile;
  cmds : list string;
  out : list string
}.

Definition step (w : World) : World :=
  mkWorld (S (steps w)) (sh w) (rnd w) (clock w) (sigint w) (stdin w)
          (write_error w) (file w) (cmds w) (out w).

Definition log_cmd (cmd : string) (w : World) : World :=
  mkWorld (steps w) (sh w) (rnd w) (clock w) (sigint w) (stdin w)
          (write_error w) (file w) (cmds w ++ [cmd]) (out w).

Definition emit (text : string) (w : World) : World :=
  mkWorld (steps w) (sh w) (rnd w) (clock w) (sigint w) (stdin w)
          (write_error w) (file w) (cmds w) (out w ++ [text]).

Definition store (f : BackupFile) (w : World) : World :=
  mkWorld (steps w) (sh w) (rnd w) (clock w) (sigint w) (stdin w)
          (write_error w) f (cmds w) (out w).

(** The parts of the Python runtime and of its libraries that the program
    calls and that are not the program's own: the platform flag, the
    colouring of terminal text, the text of an exception and of a decoded
    value, the regular-expression engine on the two scraping patterns,
    and the longest sleep, in seconds, that the time type of the platform
    can hold. *)
Class Runtime := {
  IS_LINUX : bool;
  sleep_max : Z;
  colored : string -> string -> string;
  str_exn : exn -> string;
  str_value : json -> string;
  (* [re.search(pattern, text)]: [group(1)] of the first match *)
  re_search : string -> string -> option string;
  (* [re.findall(pattern, text)] / [re.findall(pattern, text, re.MULTILINE)] *)
  re_findall : string -> bool -> string -> list string
}.

(* ===================================================================== *)
(** ** The monad of the program: state over [World], exceptions, fuel *)
(* ===================================================================== *)

Inductive Res (A : Type) :=
  | Ok (a : A)
  | Raise (e : exn)
  | OutOfFuel.
Arguments Ok {A} a.
Arguments Raise {A} e.
Arguments OutOfFuel {A}.

Definition M (A : Type) : Type := World -> Res A * World.

Definition ret {A} (a : A) : M A := fun w => (Ok a, w).

Definition raise {A} (e : exn) : M A := fun w => (Raise e, w).

Definition out_of_fuel {A} : M A := fun w => (OutOfFuel, w).

Definition bind {A B} (m : M A) (k : A -> M B) : M B :=
  fun w =>
    match m w with
    | (Ok a, w') => k a w'
    | (Raise e, w') => (Raise e, w')
    | (OutOfFuel, w') => (OutOfFuel, w')
    end.

Notation "x <- m ;; k" := (bind m (fun x => k))
  (at level 100, m at next level, right associativity).
Notation "m ;; k" := (bind m (fun _ => k))
  (at level 100, right associativity).

(** [try: m  except <class> as e: h e]. *)
Definition try_except {A} (catches : exn -> bool) (m : M A) (h : exn -> M A) : M A :=
  fun w =>
    match m w with
    | (Raise e, w') => if catches e then h e w' else (Raise e, w')
    | r => r
    end.

Definition lift {A} (r : Res A) : M A := fun w => (r, w).

(** [print(text)]. *)
Definition print (text : string) : M unit := fun w => (Ok tt, emit text w).

(** [subprocess.check_output(cmd, shell=True)]: the bytes written by a
    command that exits with status 0, an exception otherwise. *)
Definition check_output (cmd : string) : M string :=
  fun w =>
    let w' := step (log_cmd cmd w) in
    match sh w (steps w) cmd with
    | Exited 0 stdout => (Ok stdout, w')
    | Exited status _ => (Raise (CalledProcessError status), w')
    | SpawnFailed msg => (Raise (OSError msg), w')
    | Interrupted => (Raise KeyboardInterrupt, w')
    end.

(** [bytes.decode()]: the text, which is kept as its UTF-8 bytes, or
    [UnicodeDecodeError]. *)
Definition decode (bytes : string) : M string :=
  fun w =>
    if PyStr.utf8_valid bytes then (Ok bytes, w)
    else (Raise UnicodeDecodeError, w).

(** [subprocess.call(cmd, shell=True)]: the exit status, whatever it is. *)
Definition subprocess_call (cmd : string) : M Z :=
  fun w =>
    let w' := step (log_cmd cmd w) in
    match sh w (steps w) cmd with
    | Exited status _ => (Ok status, w')
    | SpawnFailed msg => (Raise (OSError msg), w')
    | Interrupted => (Raise KeyboardInterrupt, w')
    end.

(** [random.choice(seq)] and [random.randint(lo, hi)] for [lo <= hi]: an
    element of the sequence, a number between the bounds. *)
Definition choice (seq : list string) : M string :=
  fun w =>
    match seq with
    | [] => (Raise IndexError, w)
    | _ :: _ => (Ok (nth (rnd w (steps w) mod length seq) seq EmptyString), step w)
    end.

Definition randint (lo hi : nat) : M nat :=
  fun w => (Ok (lo + rnd w (steps w) mod (hi - lo + 1)), step w).

(** [str(datetime.now())]. *)
Definition datetime_now_str : M string :=
  fun w => (Ok (clock w (steps w)), step w).

(** [time.sleep(secs)]: refuses a negative length, and a length that
    the time type of the platform cannot hold; otherwise waits, and the
    wait may be cut short by the keyboard interrupt. *)
Definition sleep `{Runtime} (secs : Z) : M unit :=
  fun w =>
    if (secs <? 0)%Z then (Raise ValueError, w)
    else if (sleep_max <? secs)%Z then (Raise OverflowError, w)
    else if sigint w (steps w) then (Raise KeyboardInterrupt, step w)
    else (Ok tt, step w).

(** [int(input(prompt))]. *)
Definition int_input (prompt : string) : M Z :=
  fun w =>
    let w' := step (emit prompt w) in
    match stdin w (steps w) with
    | Number n => (Ok n, w')
    | NotANumber => (Raise ValueError, w')
    | EndOfInput => (Raise EOFError, w')
    | CtrlC => (Raise KeyboardInterrupt, w')
    end.

(** [os.path.exists(MAC_BACKUP_FILE)]. *)
Definition path_exists : M bool :=
  fun w => (Ok (match file w with NoFile => false | _ => true end), w).

(** [with open(MAC_BACKUP_FILE) as f: data = json.load(f)]. *)
Definition json_load_file : M json :=
  fun w =>
    match file w with
    | NoFile =>
        (Raise (OSError ("[Errno 2] No such file or directory: '" +:+ MAC_BACKUP_FILE +:+ "'")), w)
    | Unreadable (CannotOpen msg) => (Raise (OSError msg), w)
    | Unreadable (NotJSON msg) => (Raise (JSONDecodeError msg), w)
    | Holds doc => (Ok doc, w)
    end.

(** [with open(MAC_BACKUP_FILE, "w") as f: json.dump(data, f, indent=2)]:
    the file then holds the document; or it cannot be opened for writing
    and stays as it was; or the write breaks off after the opening has
    emptied the file, and what is left cannot be loaded. *)
Definition json_dump_file (data : json) : M unit :=
  fun w =>
    match write_error w with
    | None => (Ok tt, store (Holds data) w)
    | Some (OpenRefused msg) => (Raise (OSError msg), w)
    | Some (DumpBroken msg later) =>
        (Raise (OSError msg), store (Unreadable (NotJSON later)) w)
    end.

(** [key in data], [data[key]] and [data[key] = v] for a string [key] and
    a decoded document [data]. *)
Definition py_eq_str (key : string) (v : json) : bool :=
  match v with
  | JStr s => String.eqb key s
  | _ => false
  end.

Definition py_in (key : string) (data : json) : Res bool :=
  match data with
  | JObj fields => Ok (bool_decide (is_Some (fields !! key)))
  | JArr items => Ok (existsb (py_eq_str key) items)
  | JStr s => Ok (PyStr.contains key s)
  | _ => Raise TypeError
  end.

Definition py_getitem (data : json) (key : string) : Res json :=
  match data with
  | JObj fields =>
      match fields !! key with
      | Some v => Ok v
      | None => Raise (KeyError key)
      end
  | _ => Raise TypeError
  end.

Definition py_setitem (data : json) (key : string) (v : json) : Res json :=
  match data with
  | JObj fields => Ok (JObj (<[key := v]> fields))
  | _ => Raise TypeError
  end.

(** [str(n)] for an integer. *)
Definition str_int (n : Z) : string :=
  NilZero.string_of_int (Z.to_int n).

(** Truth values of optional strings and integers ([None] and the empty
    string are false; [None] and [0] are false). *)
Definition truthy_str (o : option string) : bool :=
  match o with
  | Some (String _ _) => true
  | _ => false
  end.

Definition truthy_int (o : option Z) : bool :=
  match o with
  | Some n => negb (n =? 0)%Z
  | None => false
  end.

(* ===================================================================== *)
(** ** The program *)
(* ===================================================================== *)

Section Program.
Context `{Runtime}.

(** [str(v)] inside an f-string: a string is inserted as it is. *)
Definition py_str (v : json) : string :=
  match v with
  | JStr s => s
  | _ => str_value v
  end.

(* ---------- Utilities ---------- *)

Definition run_command (cmd : string) : M string :=
  bytes <- check_output cmd ;;
  decode bytes.

Definition detect_interfaces : M (list string) :=
  try_except is_anything
    (output <- run_command (if IS_LINUX then "ip link" else "ifconfig") ;;
     ret (if IS_LINUX
          then re_findall "\d+: (\w+):" false output
          else re_findall "^(\w+):" true output))
    (fun _ => ret []).

Definition get_mac (interface : string) : M (option string) :=
  try_except is_anything
    (output <- run_command (if IS_LINUX
                            then "ip link show " +:+ interface
                            else "ifconfig " +:+ interface) ;;
     ret (if IS_LINUX
          then re_search "ether\s+([\da-fA-F:]{17})" output
          else re_search "(\w\w:\w\w:\w\w:\w\w:\w\w:\w\w)" output))
    (fun _ => ret None).

Definition random_mac : M string :=
  key <- choice (dict_keys VENDOR_PREFIXES) ;;
  let prefix := PyStr.split ":" key in
  a <- randint 0 255 ;;
  b <- randint 0 255 ;;
  c <- randint 0 255 ;;
  let suffix := [PyStr.format_02x a; PyStr.format_02x b; PyStr.format_02x c] in
  ret (PyStr.join ":" (prefix ++ suffix)).

(* ---------- MAC Operations ---------- *)

(** The three commands of one change, in the order they are issued. *)
Definition change_mac_cmds (interface new_mac : string) : list string :=
  [ if IS_LINUX then "ip link set " +:+ interface +:+ " down"
    else "ifconfig " +:+ interface +:+ " down";
    if IS_LINUX then "ip link set " +:+ interface +:+ " address " +:+ new_mac
    else "ifconfig " +:+ interface +:+ " hw ether " +:+ new_mac;
    if IS_LINUX then "ip link set " +:+ interface +:+ " up"
    else "ifconfig " +:+ interface +:+ " up" ].

(** [for cmd in cmds: subprocess.call(cmd, shell=True)]. *)
Fixpoint call_each (cmds : list string) : M unit :=
  match cmds with
  | [] => ret tt
  | cmd :: rest => _ <- subprocess_call cmd ;; call_each rest
  end.

Definition change_mac (interface new_mac : string) : M bool :=
  try_except is_anything
    (call_each (change_mac_cmds interface new_mac) ;;
     ret true)
    (fun _ => ret false).

(** The record written for one interface. *)
Definition backup_record (mac stamp : string) : json :=
  JObj (<["original_mac" := JStr mac]> (<["timestamp" := JStr stamp]> ∅)).

Definition backup_mac (interface mac : string) : M unit :=
  try_except is_Exception
    (present <- path_exists ;;
     data <- (if present then json_load_file else ret (JObj ∅)) ;;
     stamp <- datetime_now_str ;;
     data <- lift (py_setitem data interface (backup_record mac stamp)) ;;
     json_dump_file data ;;
     print (colored "[✓] Original MAC backed up." "yellow"))
    (fun e => print (colored ("[✗] Backup failed: " +:+ str_exn e) "red")).

Definition restore_mac (interface : string) : M unit :=
  try_except is_Exception
    (data <- json_load_file ;;
     found <- lift (py_in interface data) ;;
     if found then
       entry <- lift (py_getitem data interface) ;;
       original <- lift (py_getitem entry "original_mac") ;;
       _ <- change_mac interface (py_str original) ;;
       print (colored ("[✓] Restored MAC: " +:+ py_str original) "green")
     else
       print (colored "[✗] No backup found for this interface." "red"))
    (fun e => print (colored ("[✗] Restore failed: " +:+ str_exn e) "red")).

(* ---------- MAC Rotation ---------- *)

(** [while mac.lower() == current.lower(): mac = random_mac()], at most
    [fuel] regenerations; the result is the value of [mac] after the
    loop. *)
Fixpoint regenerate_while_same (fuel : nat) (current mac : string) : M string :=
  if String.eqb (PyStr.lower mac) (PyStr.lower current) then
    match fuel with
    | O => out_of_fuel
    | S fuel' => mac' <- random_mac ;; regenerate_while_same fuel' current mac'
    end
  else ret mac.

(** One pass through the body of [while True]. *)
Definition rotate_tick (fuel : nat) (interface : string) (interval : Z) : M unit :=
  current <- get_mac interface ;;
  mac <- random_mac ;;
  mac <- match current with
         | Some current => regenerate_while_same fuel current mac
         | None => raise AttributeError      (* [None.lower()] *)
         end ;;
  _ <- change_mac interface mac ;;
  print (colored ("[✓] Rotated MAC: " +:+ mac) "green") ;;
  sleep interval.

Fixpoint rotate_loop (ticks fuel : nat) (interface : string) (interval : Z) : M unit :=
  match ticks with
  | O => out_of_fuel
  | S ticks' =>
      rotate_tick fuel interface interval ;;
      rotate_loop ticks' fuel interface interval
  end.

Definition rotate_mac (fuel : nat) (interface : string) (interval : Z) : M unit :=
  print (colored ("[⟳] Rotating MAC every " +:+ str_int interval +:+ "s on " +:+ interface) "cyan") ;;
  try_except is_KeyboardInterrupt
    (rotate_loop fuel fuel interface interval)
    (fun _ => print (colored (PyStr.newline +:+ "[!] Rotation stopped by user.") "red")).

(* ---------- CLI ---------- *)

(** The namespace that [parser.parse_args()] returns. *)
Record Args := mkArgs {
  arg_interface : option string;
  arg_mac : option string;
  arg_restore : bool;
  arg_random : bool;
  arg_interval : option Z
}.

(** [for i, iface in enumerate(interfaces, 1): print(f"  {i}. {iface}")]. *)
Fixpoint print_menu (i : nat) (interfaces : list string) : M unit :=
  match interfaces with
  | [] => ret tt
  | iface :: rest =>
      print ("  " +:+ str_int (Z.of_nat i) +:+ ". " +:+ iface) ;;
      print_menu (S i) rest
  end.

(** The prompt loop: asks until a number in range is typed. *)
Fixpoint prompt_choice (fuel : nat) (interfaces : list string) : M string :=
  match fuel with
  | O => out_of_fuel
  | S fuel' =>
      picked <- try_except is_ValueError
                  (choice_idx <- int_input (colored "Enter choice: " "yellow") ;;
                   if ((1 <=? choice_idx)%Z && (choice_idx <=? Z.of_nat (length interfaces))%Z)%bool
                   then ret (Some (nth (Z.to_nat (choice_idx - 1)) interfaces EmptyString))
                   else (print (colored "[✗] Out of range. Try again." "red") ;; ret None))
                  (fun _ => print (colored "[✗] Invalid input. Enter a number." "red") ;; ret None) ;;
      match picked with
      | Some interface => ret interface
      | None => prompt_choice fuel' interfaces
      end
  end.

(** "Choose interface": [None] when the program gives up for lack of
    interfaces. *)
Definition choose_interface (fuel : nat) (args : Args) : M (option string) :=
  if truthy_str (arg_interface args) then ret (arg_interface args)
  else
    interfaces <- detect_interfaces ;;
    match interfaces with
    | [] => print (colored "[✗] No interfaces found!" "red") ;; ret None
    | _ :: _ =>
        print (colored "[*] Select interface:" "cyan") ;;
        print_menu 1 interfaces ;;
        interface <- prompt_choice fuel interfaces ;;
        ret (Some interface)
    end.

(** "Manual or random change": the call of [change_mac] and the report
    that depends on its answer. *)
Definition apply_and_report (interface current new_mac : string) : M unit :=
  changed <- change_mac interface new_mac ;;
  if changed then
    updated <- get_mac interface ;;
    match updated with
    | None => raise AttributeError      (* [get_vendor(None)] *)
    | Some updated =>
        let vendor := get_vendor updated in
        print (colored ("[✓] MAC changed successfully!" +:+ PyStr.newline +:+ "    "
                        +:+ current +:+ " → " +:+ updated +:+ " (" +:+ vendor +:+ ")") "green")
    end
  else
    print (colored "[✗] MAC change failed." "red").

(** "Manual or random change", from the choice of the new address on. *)
Definition one_shot (fuel : nat) (args : Args) (interface current : string) : M unit :=
  new_mac <- (if truthy_str (arg_mac args)
              then ret (default EmptyString (arg_mac args))
              else random_mac) ;;
  new_mac <- regenerate_while_same fuel current new_mac ;;
  apply_and_report interface current new_mac.

Definition cli (fuel : nat) (args : Args) : M unit :=
  (* No operation specified *)
  (if negb (truthy_str (arg_mac args) || arg_random args || arg_restore args
            || truthy_int (arg_interval args))
   then print (colored ("[!] No action specified. Defaulting to random MAC." +:+ PyStr.newline) "yellow")
   else ret tt) ;;
  (* Validate MAC format *)
  if truthy_str (arg_mac args) && negb (mac_format_match (default EmptyString (arg_mac args)))
  then print (colored "[✗] Invalid MAC format! Use: 00:11:22:33:44:55" "red")
  else
    (* Choose interface *)
    chosen <- choose_interface fuel args ;;
    match chosen with
    | None => ret tt
    | Some interface =>
        (* Get current MAC *)
        current <- get_mac interface ;;
        if negb (truthy_str current)
        then print (colored ("[✗] Could not fetch MAC for " +:+ interface) "red")
        else
          let current := default EmptyString current in
          print (colored "[✓] Interface: " "cyan" +:+ colored interface "yellow") ;;
          print (colored "[i] Current MAC: " "blue" +:+ colored current "white") ;;
          (* Restore *)
          if arg_restore args then restore_mac interface
          else
            (* Backup before change *)
            backup_mac interface current ;;
            (* Rotation *)
            if truthy_int (arg_interval args)
            then rotate_mac fuel interface (default 0%Z (arg_interval args))
            else one_shot fuel args interface current
    end.

End Program.

(* ===================================================================== *)
(** ** Vocabulary of the properties *)
(* ===================================================================== *)

(** The decidable form of [hex_pair]. *)
Definition hex_pair_b (p : string) : bool :=
  match p with
  | String a (String b EmptyString) => is_hex a && is_hex b
  | _ => false
  end.

(** The candidate address and the host after one more [random_mac()]. *)
Definition redraw (p : string * World) : string * World :=
  match random_mac (snd p) with
  | (Ok mac, w) => (mac, w)
  | (_, w) => (fst p, w)
  end.

(** The candidate and the host after [n] regenerations. *)
Definition candidate (n : nat) (mac : string) (w : World) : string * World :=
  Nat.iter n redraw (mac, w).

(** No interruption is ever signalled: not to a wait, not to a command,
    not to the prompt. *)
Definition never_interrupted (w : World) : Prop :=
  (forall k, sigint w k = false) /\
  (forall k cmd, sh w k cmd <> Interrupted) /\
  (forall k, stdin w k <> CtrlC).

(** The mapping that the Backup Store sees: a missing file counts as the
    empty mapping, a file holding a JSON object as that object; any other
    file holds no mapping. *)
Definition backup_mapping (w : World) : option (gmap string json) :=
  match file w with
  | NoFile => Some ∅
  | Holds (JObj fields) => Some fields
  | _ => None
  end.

(** Two states of one host: the answers of the host are the same, only
    what the program did may differ. *)
Definition same_host (w w' : World) : Prop :=
  sh w' = sh w /\ rnd w' = rnd w /\ clock w' = clock w /\
  sigint w' = sigint w /\ stdin w' = stdin w /\ write_error w' = write_error w.

(** An action that leaves the answers of the host as they are. *)
Definition keeps_host {A} (m : M A) : Prop :=
  forall w, same_host w (snd (m w)).

(** An action that does not end by [KeyboardInterrupt] unless the host
    signals an interruption. *)
Definition interrupt_from_host {A} (m : M A) : Prop :=
  forall w, never_interrupted w -> fst (m w) <> Raise KeyboardInterrupt.

(** The command with which [get_mac] reads the address of an interface. *)
Definition show_cmd `{Runtime} (interface : string) : string :=
  if IS_LINUX then "ip link show " +:+ interface else "ifconfig " +:+ interface.

(** The command with which [detect_interfaces] lists the links, and what
    [detect_interfaces] and [get_mac] make of the output of their
    commands: what the pattern finds in it when it decodes, nothing when
    it does not. *)
Definition list_cmd `{Runtime} : string :=
  if IS_LINUX then "ip link" else "ifconfig".

Definition scrape_links `{Runtime} (output : string) : list string :=
  if PyStr.utf8_valid output
  then (if IS_LINUX
        then re_findall "\d+: (\w+):" false output
        else re_findall "^(\w+):" true output)
  else [].

Definition scrape_address `{Runtime} (output : string) : option string :=
  if PyStr.utf8_valid output
  then (if IS_LINUX
        then re_search "ether\s+([\da-fA-F:]{17})" output
        else re_search "(\w\w:\w\w:\w\w:\w\w:\w\w:\w\w)" output)
  else None.

(** The line that [cli] prints first when no action was asked for, and
    the host after [cli] has dealt with that. *)
Definition no_action `{Runtime} (args : Args) : bool :=
  negb (truthy_str (arg_mac args) || arg_random args || arg_restore args
        || truthy_int (arg_interval args)).

Definition after_notice `{Runtime} (args : Args) (w : World) : World :=
  if no_action args
  then emit (colored ("[!] No action specified. Defaulting to random MAC."
                      +:+ PyStr.newline) "yellow") w
  else w.

(** The run of [cli] from "Get current MAC" on, for the interface that
    was given or chosen. *)
Definition cli_on_interface `{Runtime} (fuel : nat) (args : Args) (interface : string)
    : M unit :=
  current <- get_mac interface ;;
  if negb (truthy_str current)
  then print (colored ("[✗] Could not fetch MAC for " +:+ interface) "red")
  else
    let current := default EmptyString current in
    print (colored "[✓] Interface: " "cyan" +:+ colored interface "yellow") ;;
    print (colored "[i] Current MAC: " "blue" +:+ colored current "white") ;;
    if arg_restore args then restore_mac interface
    else
      backup_mac interface current ;;
      if truthy_int (arg_interval args)
      then rotate_mac fuel interface (default 0%Z (arg_interval args))
      else one_shot fuel args interface current.

(** An address given on the command line passes the format check, or
    none is given (an empty one counts as none). *)
Definition mac_arg_passes (args : Args) : Prop :=
  truthy_str (arg_mac args) = false \/
  mac_format_match (default EmptyString (arg_mac args)) = true.

(** Two states of one host with the same backup file. *)
Definition same_file (w w' : World) : Prop := file w' = file w.

(** An action after which the host is related to the host before. *)
Definition frames (R : World -> World -> Prop) {A} (m : M A) : Prop :=
  forall w, R w (snd (m w)).

(** An answer at the prompt that makes the prompt ask again, for a menu
    of [n] interfaces: not a number, or a number out of range. *)
Definition rejected_choice (n : nat) (t : Typed) : Prop :=
  t = NotANumber \/ exists z, t = Number z /\ (z < 1 \/ Z.of_nat n < z)%Z.

(** The host after the commands [cmds0] have been run one after the
    other. *)
Definition run_all (cmds0 : list string) (w : World) : World :=
  fold_left (fun w cmd => step (log_cmd cmd w)) cmds0 w.

(** Every shell command runs to its end, with whatever exit status. *)
Definition commands_exit (w : World) : Prop :=
  forall k cmd, exists status stdout, sh w k cmd = Exited status stdout.

(* ===================================================================== *)
(** ** Sample runtime and hosts *)
(* ===================================================================== *)

Module Sample.

(** The class [\s] on ASCII text. *)
Definition is_space (c : ascii) : bool :=
  let n := nat_of_ascii c in
  ((9 <=? n)%nat && (n <=? 13)%nat) || ((28 <=? n)%nat && (n <=? 32)%nat).

(** [[\da-fA-F:]{n}] at the head of [s]. *)
Fixpoint take_address (n : nat) (s : string) : option string :=
  match n with
  | O => Some EmptyString
  | S n' =>
      match s with
      | String c s' =>
          if is_hex c || Ascii.eqb c ":" then
            match take_address n' s' with
            | Some t => Some (String c t)
            | None => None
            end
          else None
      | EmptyString => None
      end
  end.

Fixpoint skip_spaces (s : string) : string :=
  match s with
  | String c s' => if is_space c then skip_spaces s' else s
  | EmptyString => s
  end.

Definition drop_string (n : nat) (s : string) : string :=
  String.substring n (String.length s - n) s.

(** [ether\s+([\da-fA-F:]{17})] at the head of [s]. *)
Definition ether_here (s : string) : option string :=
  if String.prefix "ether" s then
    match drop_string 5 s with
    | String c rest =>
        if is_space c then take_address 17 (skip_spaces rest) else None
    | EmptyString => None
    end
  else None.

(** The first match of that pattern anywhere in [s]. *)
Fixpoint search_ether (s : string) : option string :=
  match ether_here s with
  | Some found => Some found
  | None =>
      match s with
      | String _ s' => search_ether s'
      | EmptyString => None
      end
  end.

(** A Linux runtime that prints without colour and knows the pattern of
    [ip link show]. *)
Definition plain : Runtime := {|
  IS_LINUX := true;
  sleep_max := 9223372036;
  colored := fun text _ => text;
  str_exn := fun e =>
    match e with
    | OSError msg => msg
    | JSONDecodeError msg => msg
    | KeyError key => "'" +:+ key +:+ "'"
    | CalledProcessError _ => "Command returned non-zero exit status"
    | _ => EmptyString
    end;
  str_value := fun _ => "<value>";
  re_search := fun pattern text =>
    if String.eqb pattern "ether\s+([\da-fA-F:]{17})" then search_ether text else None;
  re_findall := fun _ _ _ => []
|}.

Definition ip_link_show_eth0 : string :=
  "2: eth0: <BROADCAST,MULTICAST,UP,LOWER_UP> mtu 1500 qdisc fq_codel state UP" +:+ PyStr.newline +:+
  "    link/ether 11:22:33:44:55:66 brd ff:ff:ff:ff:ff:ff" +:+ PyStr.newline.

Definition host (shell : nat -> string -> ProcResult) (f : BackupFile) : World := {|
  steps := 0;
  sh := shell;
  rnd := fun k => k;
  clock := fun _ => "2024-05-01 12:00:00.000000";
  sigint := fun _ => false;
  stdin := fun _ => EndOfInput;
  write_error := None;
  file := f;
  cmds := [];
  out := []
|}.

(** Every command succeeds and [ip link show] prints a fixed address. *)
Definition obliging_shell : nat -> string -> ProcResult :=
  fun _ cmd =>
    if String.prefix "ip link show" cmd then Exited 0 ip_link_show_eth0
    else Exited 0 EmptyString.

(** A user without privileges: reading works, every [ip link set] is
    refused with exit status 2. *)
Definition unprivileged_shell : nat -> string -> ProcResult :=
  fun _ cmd =>
    if String.prefix "ip link show" cmd then Exited 0 ip_link_show_eth0
    else Exited 2 EmptyString.

(** The interface is gone: every command exits with status 1. *)
Definition failing_shell : nat -> string -> ProcResult :=
  fun _ _ => Exited 1 EmptyString.

(** Reading works, but no [ip link set] can be started. *)
Definition broken_shell : nat -> string -> ProcResult :=
  fun _ cmd =>
    if String.prefix "ip link show" cmd then Exited 0 ip_link_show_eth0
    else SpawnFailed "[Errno 12] Cannot allocate memory".

(** A host on which a change takes effect: from the fourth interaction on
    the interface shows the new address. *)
Definition ip_link_show_changed : string :=
  "3: wlan0: <BROADCAST,MULTICAST,UP,LOWER_UP> mtu 1500 qdisc noqueue state UP" +:+ PyStr.newline +:+
  "    link/ether 00:14:22:aa:bb:cc brd ff:ff:ff:ff:ff:ff" +:+ PyStr.newline.

Definition changing_shell : nat -> string -> ProcResult :=
  fun k cmd =>
    if String.prefix "ip link show" cmd
    then Exited 0 (if (k <? 3)%nat then ip_link_show_eth0 else ip_link_show_changed)
    else Exited 0 EmptyString.

(** A user who presses Ctrl-C while a command runs: every command is
    interrupted. *)
Definition interrupted_shell : nat -> string -> ProcResult :=
  fun _ _ => Interrupted.


(** [ip link] lists two links; the other commands are those of
    [obliging_shell]. *)
Definition ip_link : string :=
  "1: lo: <LOOPBACK,UP,LOWER_UP> mtu 65536 qdisc noqueue state UNKNOWN" +:+ PyStr.newline +:+
  "    link/loopback 00:00:00:00:00:00 brd 00:00:00:00:00:00" +:+ PyStr.newline +:+
  "2: eth0: <BROADCAST,MULTICAST,UP,LOWER_UP> mtu 1500 qdisc fq_codel state UP" +:+ PyStr.newline +:+
  "    link/ether 11:22:33:44:55:66 brd ff:ff:ff:ff:ff:ff" +:+ PyStr.newline.

Definition listing_shell : nat -> string -> ProcResult :=
  fun k cmd => if String.eqb cmd "ip link" then Exited 0 ip_link else obliging_shell k cmd.

(** The same listing after a link whose alias holds the byte 0xFF, which
    no UTF-8 text contains. *)
Definition ip_link_garbled : string :=
  "3: wlan0: <BROADCAST> mtu 1500 qdisc noop state DOWN alias "
  +:+ String (ascii_of_nat 255) PyStr.newline +:+ ip_link.

Definition garbled_shell : nat -> string -> ProcResult :=
  fun k cmd =>
    if String.eqb cmd "ip link" then Exited 0 ip_link_garbled else obliging_shell k cmd.

(** The classes [\d] and [\w] on ASCII text. *)
Definition is_digit (c : ascii) : bool :=
  let n := nat_of_ascii c in (48 <=? n)%nat && (n <=? 57)%nat.

Definition is_word (c : ascii) : bool :=
  is_digit c || PyStr.is_ascii_upper c || PyStr.is_ascii_lower c || Ascii.eqb c "_".

(** The longest head of [s] in a class, and what follows it. *)
Fixpoint span (class : ascii -> bool) (s : string) : string * string :=
  match s with
  | String c s' =>
      if class c then let (head, rest) := span class s' in (String c head, rest)
      else (EmptyString, s)
  | EmptyString => (EmptyString, s)
  end.

(** [\d+: (\w+):] at the head of [s]: the name and what follows the
    match. *)
Definition link_here (s : string) : option (string * string) :=
  match span is_digit s with
  | (String _ _, String ":" (String " " after)) =>
      match span is_word after with
      | (String c name, String ":" rest) => Some (String c name, rest)
      | _ => None
      end
  | _ => None
  end.

(** All the matches of that pattern in [s], from left to right. *)
Fixpoint findall_links (fuel : nat) (s : string) : list string :=
  match fuel with
  | O => []
  | S fuel' =>
      match link_here s with
      | Some (name, rest) => name :: findall_links fuel' rest
      | None =>
          match s with
          | String _ s' => findall_links fuel' s'
          | EmptyString => []
          end
      end
  end.

(** The runtime [plain] with the pattern of [ip link] as well. *)
Definition listing : Runtime := {|
  IS_LINUX := true;
  sleep_max := 9223372036;
  colored := fun text _ => text;
  str_exn := @str_exn plain;
  str_value := @str_value plain;
  re_search := @re_search plain;
  re_findall := fun pattern multiline text =>
    if String.eqb pattern "\d+: (\w+):" && negb multiline
    then findall_links (S (String.length text)) text
    else []
|}.

(** A host whose keyboard is in use: [keys] are the answers typed at the
    prompt, [ints] says which sleeps are cut short. *)
Definition host_io (shell : nat -> string -> ProcResult) (f : BackupFile)
    (ints : nat -> bool) (keys : nat -> Typed) : World := {|
  steps := 0;
  sh := shell;
  rnd := fun k => k;
  clock := fun _ => "2024-05-01 12:00:00.000000";
  sigint := ints;
  stdin := keys;
  write_error := None;
  file := f;
  cmds := [];
  out := []
|}.

(** A backup file that is not a mapping, and one whose record for [eth0]
    has no address. *)
Definition backup_list : BackupFile := Holds (JArr [JStr "eth0"]).

Definition backup_without_address : BackupFile :=
  Holds (JObj (<["eth0" := JObj (<["timestamp" := JStr "2024-04-30 09:30:00.000000"]> ∅)]> ∅)).

(** A backup file with one record, for [wlan0]. *)
Definition backup_of_wlan0 : BackupFile :=
  Holds (JObj (<["wlan0" := backup_record "11:22:33:44:55:66" "2024-04-30 09:30:00.000000"]> ∅)).

(** The same host with a disk on which writing the backup file fails. *)
Definition failing_disk (why : WriteFailure) (w : World) : World :=
  mkWorld (steps w) (sh w) (rnd w) (clock w) (sigint w) (stdin w)
          (Some why) (file w) (cmds w) (out w).

Definition read_only : WriteFailure :=
  OpenRefused "[Errno 30] Read-only file system: 'mac_backup.json'".

Definition disk_full : WriteFailure :=
  DumpBroken "[Errno 28] No space left on device"
             "Expecting value: line 1 column 1 (char 0)".

End Sample.

(* ===================================================================== *)
(** ** Properties of the pure functions *)
(* ===================================================================== *)

Section StringFacts.
Import PyStr.

Lemma upper_same_letter a b : same_letter a b -> ascii_upper a = ascii_upper b.
Proof.
  intros [-> | [[Hc ->] | [Hc ->]]]; [reflexivity | |];
    revert Hc; destruct a as [[] [] [] [] [] [] [] []]; vm_compute; congruence.
Qed.

Lemma upper_case_variant s t : case_variant s t -> upper s = upper t.
Proof.
  induction 1 as [| a b s t Hab _ IH]; simpl.
  - reflexivity.
  - now rewrite (upper_same_letter a b Hab), IH.
Qed.

Lemma lower_case_variant s t : case_variant s t -> lower s = lower t.
Proof.
  induction 1 as [| a b s t Hab _ IH]; simpl; [reflexivity |].
  rewrite IH. f_equal.
  destruct Hab as [-> | [[Hc ->] | [Hc ->]]]; [reflexivity | |];
    revert Hc; destruct a as [[] [] [] [] [] [] [] []]; vm_compute; congruence.
Qed.

(** Conversely, two strings with one lower-case form differ only in the
    case of their letters. *)
Lemma upper_lower_upper a : is_ascii_upper a = true -> ascii_upper (ascii_lower a) = a.
Proof. destruct a as [[] [] [] [] [] [] [] []]; vm_compute; congruence. Qed.

Lemma lower_of_upper a : is_ascii_upper a = true -> is_ascii_lower (ascii_lower a) = true.
Proof. destruct a as [[] [] [] [] [] [] [] []]; vm_compute; congruence. Qed.

Lemma lower_not_upper a : is_ascii_upper a = false -> ascii_lower a = a.
Proof. intros Ha. unfold ascii_lower. now rewrite Ha. Qed.

Lemma lower_same_letter a b : ascii_lower a = ascii_lower b -> same_letter a b.
Proof.
  intros Heq.
  destruct (is_ascii_upper a) eqn:Ha, (is_ascii_upper b) eqn:Hb.
  - left. now rewrite <- (upper_lower_upper a Ha), Heq, upper_lower_upper.
  - right. left. split; [exact Ha |]. now rewrite Heq, lower_not_upper.
  - right. right. rewrite (lower_not_upper a Ha) in Heq. subst a.
    split; [now apply lower_of_upper | now rewrite upper_lower_upper].
  - left. now rewrite (lower_not_upper a Ha), (lower_not_upper b Hb) in Heq.
Qed.

Lemma case_variant_lower s : forall t, lower s = lower t -> case_variant s t.
Proof.
  induction s as [| a s IH]; intros [| b t]; simpl; try discriminate.
  - constructor.
  - intros [= Hab Hst]. constructor; [now apply lower_same_letter | now apply IH].
Qed.

Lemma hex_pair_b_sound p : hex_pair_b p = true -> hex_pair p.
Proof.
  destruct p as [| a [| b [| c r]]]; simpl; try discriminate.
  intros Hab. apply andb_prop in Hab as [Ha Hb].
  exists a, b. repeat split; assumption.
Qed.

Lemma format_02x_hex_pair n : (n < 256)%nat -> hex_pair (format_02x n).
Proof.
  intros Hn. apply hex_pair_b_sound.
  assert (Hall : forallb (fun k => hex_pair_b (format_02x k)) (seq 0 256) = true)
    by (vm_compute; reflexivity).
  rewrite forallb_forall in Hall. apply Hall, in_seq. lia.
Qed.

Lemma hex_pair_length p : hex_pair p -> String.length p = 2%nat.
Proof. intros (a & b & _ & _ & ->). reflexivity. Qed.

(** What [bytes.decode()] accepts and refuses: text of one to four bytes
    a character; a continuation byte on its own, a character cut short,
    an overlong form, a surrogate, a code point above U+10FFFF and the
    bytes 0xC0, 0xC1 and 0xF5-0xFF. *)
Lemma utf8_valid_examples :
  utf8_valid "eth0: é € 😀" = true /\
  utf8_valid (String (ascii_of_nat 128) EmptyString) = false /\
  utf8_valid (String (ascii_of_nat 226) (String (ascii_of_nat 130) EmptyString)) = false /\
  utf8_valid (String (ascii_of_nat 192) (String (ascii_of_nat 128) EmptyString)) = false /\
  utf8_valid (String (ascii_of_nat 224) (String (ascii_of_nat 128)
                (String (ascii_of_nat 128) EmptyString))) = false /\
  utf8_valid (String (ascii_of_nat 237) (String (ascii_of_nat 160)
                (String (ascii_of_nat 128) EmptyString))) = false /\
  utf8_valid (String (ascii_of_nat 244) (String (ascii_of_nat 144)
                (String (ascii_of_nat 128) (String (ascii_of_nat 128) EmptyString)))) = false /\
  utf8_valid (String (ascii_of_nat 255) EmptyString) = false.
Proof. vm_compute. repeat split. Qed.

End StringFacts.

Lemma dict_get_range d key default :
  In (dict_get d key default) (map snd d) \/ dict_get d key default = default.
Proof.
  induction d as [| [k v] d IH]; simpl.
  - now right.
  - destruct (String.eqb k key).
    + left. now left.
    + destruct IH as [IH | IH]; [left; now right | now right].
Qed.

(** Six pairs and five colons: seventeen characters. *)
Lemma six_hex_pairs_length s : six_hex_pairs s -> String.length s = 17%nat.
Proof.
  intros (ps & Hlen & Hall & ->).
  destruct ps as [| p1 [| p2 [| p3 [| p4 [| p5 [| p6 [| p7 ps]]]]]]]; try discriminate.
  repeat match goal with
         | Hf : Forall _ (_ :: _) |- _ => inversion Hf; subst; clear Hf
         end.
  repeat match goal with
         | Hp : hex_pair _ |- _ => destruct Hp as (? & ? & _ & _ & ->)
         end.
  reflexivity.
Qed.

Lemma match_hex2_inv s rest :
  match_hex2 s = Some rest ->
  exists a b, is_hex a = true /\ is_hex b = true /\ s = String a (String b rest).
Proof.
  destruct s as [| a [| b r]]; simpl; try discriminate.
  destruct (is_hex a) eqn:Ha, (is_hex b) eqn:Hb; simpl; try discriminate.
  intros [= <-]. now exists a, b.
Qed.

Lemma match_hex2_colon_inv n s rest :
  match_hex2_colon (S n) s = Some rest ->
  exists a b s', is_hex a = true /\ is_hex b = true /\
                 s = String a (String b (String ":" s')) /\
                 match_hex2_colon n s' = Some rest.
Proof.
  simpl. destruct (match_hex2 s) as [r |] eqn:Hm; [| discriminate].
  apply match_hex2_inv in Hm as (a & b & Ha & Hb & ->).
  destruct r as [| c r]; [discriminate |].
  destruct (Ascii.eqb_spec c ":") as [-> | Hne].
  - intros Hrest. now exists a, b, r.
  - destruct c as [[] [] [] [] [] [] [] []]; try discriminate. now destruct Hne.
Qed.

Lemma at_dollar_inv rest :
  at_dollar rest = true -> rest = EmptyString \/ rest = PyStr.newline.
Proof.
  destruct rest as [| c [| d r]]; simpl; try discriminate.
  - now left.
  - intros Hc. apply Ascii.eqb_eq in Hc as ->. now right.
Qed.

(** What the check of the command line accepts: the six pairs, with or
    without one line feed after them. *)
Lemma mac_format_match_spec mac :
  mac_format_match mac = true <->
  six_hex_pairs mac \/ exists t, six_hex_pairs t /\ mac = t +:+ PyStr.newline.
Proof.
  split.
  - unfold mac_format_match.
    destruct (match_hex2_colon 5 mac) as [r5 |] eqn:H5; [| discriminate].
    destruct (match_hex2 r5) as [r6 |] eqn:H6; [| discriminate].
    intros Hend.
    apply match_hex2_colon_inv in H5 as (a1 & b1 & s1 & Ha1 & Hb1 & -> & H5).
    apply match_hex2_colon_inv in H5 as (a2 & b2 & s2 & Ha2 & Hb2 & -> & H5).
    apply match_hex2_colon_inv in H5 as (a3 & b3 & s3 & Ha3 & Hb3 & -> & H5).
    apply match_hex2_colon_inv in H5 as (a4 & b4 & s4 & Ha4 & Hb4 & -> & H5).
    apply match_hex2_colon_inv in H5 as (a5 & b5 & s5 & Ha5 & Hb5 & -> & H5).
    simpl in H5. injection H5 as ->.
    apply match_hex2_inv in H6 as (a6 & b6 & Ha6 & Hb6 & ->).
    assert (Hsix : six_hex_pairs
                     (PyStr.join ":" [String a1 (String b1 EmptyString);
                                      String a2 (String b2 EmptyString);
                                      String a3 (String b3 EmptyString);
                                      String a4 (String b4 EmptyString);
                                      String a5 (String b5 EmptyString);
                                      String a6 (String b6 EmptyString)])).
    { eexists. split; [| split; [| reflexivity]]; [reflexivity |].
      repeat constructor; eexists _, _; eauto. }
    apply at_dollar_inv in Hend as [-> | ->].
    + left. exact Hsix.
    + right. eexists. split; [exact Hsix | reflexivity].
  - assert (Hsix : forall t, six_hex_pairs t ->
                     mac_format_match t = true /\ mac_format_match (t +:+ PyStr.newline) = true).
    { intros t (ps & Hlen & Hall & ->).
      destruct ps as [| p1 [| p2 [| p3 [| p4 [| p5 [| p6 [| p7 ps]]]]]]]; try discriminate.
      repeat match goal with
             | Hf : Forall _ (_ :: _) |- _ => inversion Hf; subst; clear Hf
             end.
      repeat match goal with
             | Hp : hex_pair _ |- _ => destruct Hp as (? & ? & ? & ? & ->)
             end.
      unfold mac_format_match; simpl.
      repeat match goal with
             | Hx : is_hex _ = true |- _ => rewrite Hx; clear Hx; simpl
             end.
      split; reflexivity. }
    intros [Hmac | (t & Ht & ->)]; now apply Hsix.
Qed.

Lemma mac_format_examples :
  mac_format_match "00:11:22:33:44:55" = true /\
  mac_format_match "00:11:22:33:44" = false /\
  mac_format_match "00-11-22-33-44-55" = false /\
  mac_format_match "gg:11:22:33:44:55" = false.
Proof. repeat split; reflexivity. Qed.

(** C7. [get_vendor] is a function defined on every address; its value is
    one of the vendor names of [VENDOR_PREFIXES] or the text "Unknown";
    and two addresses that differ only in the case of their letters get
    the same vendor. *)
Theorem get_vendor_total_and_case_blind :
  (forall mac,
     In (get_vendor mac) (map snd VENDOR_PREFIXES) \/ get_vendor mac = "Unknown") /\
  (forall mac mac', PyStr.case_variant mac mac' -> get_vendor mac = get_vendor mac').
Proof.
  split.
  - intros mac. apply dict_get_range.
  - intros mac mac' Hcase. unfold get_vendor.
    now rewrite (upper_case_variant mac mac' Hcase).
Qed.

Lemma get_vendor_total_and_case_blind_witness :
  PyStr.case_variant "ac:de:48:0a:1b:2c" "AC:DE:48:0A:1B:2C" /\
  get_vendor "ac:de:48:0a:1b:2c" = get_vendor "AC:DE:48:0A:1B:2C" /\
  get_vendor "AC:DE:48:0A:1B:2C" = "Private".
Proof.
  assert (Hcase : PyStr.case_variant "ac:de:48:0a:1b:2c" "AC:DE:48:0A:1B:2C").
  { repeat (constructor;
            [first [ now left
                   | right; right; split; reflexivity ] |]).
    constructor. }
  split; [exact Hcase |].
  split; [| reflexivity].
  apply (proj2 get_vendor_total_and_case_blind _ _ Hcase).
Defined.

(* ===================================================================== *)
(** ** The address generator *)
(* ===================================================================== *)

(** [random_mac] always returns: one draw picks the prefix, three more
    the trailing octets. *)
Lemma random_mac_run w :
  random_mac w =
  (Ok (PyStr.join ":"
         (PyStr.split ":" (nth (rnd w (steps w) mod 3) (dict_keys VENDOR_PREFIXES) EmptyString)
          ++ [PyStr.format_02x (rnd w (1 + steps w) mod 256);
              PyStr.format_02x (rnd w (2 + steps w) mod 256);
              PyStr.format_02x (rnd w (3 + steps w) mod 256)])),
   step (step (step (step w)))).
Proof. reflexivity. Qed.

Lemma random_mac_shape w :
  exists key a b c,
    In key (dict_keys VENDOR_PREFIXES) /\
    (a < 256 /\ b < 256 /\ c < 256)%nat /\
    random_mac w =
    (Ok (PyStr.join ":" (PyStr.split ":" key
                         ++ [PyStr.format_02x a; PyStr.format_02x b; PyStr.format_02x c])),
     step (step (step (step w)))).
Proof.
  eexists _, _, _, _. split; [| split; [| apply random_mac_run]].
  - pose proof (Nat.mod_upper_bound (rnd w (steps w)) 3 ltac:(lia)) as Hlt.
    destruct (rnd w (steps w) mod 3) as [| [| [| k]]]; simpl; auto. lia.
  - repeat split; apply Nat.mod_upper_bound; lia.
Qed.

(** C8. Every call of [random_mac] returns an address, and the address is
    six fields of two hexadecimal digits joined by colons: the three
    fields of a key of [VENDOR_PREFIXES], then three octets between 0 and
    255 written with two hexadecimal digits each. *)
Theorem random_mac_six_hex_pairs :
  forall w, exists mac key a b c,
    fst (random_mac w) = Ok mac /\
    six_hex_pairs mac /\
    In key (dict_keys VENDOR_PREFIXES) /\
    (a <= 255 /\ b <= 255 /\ c <= 255)%nat /\
    mac = PyStr.join ":" (PyStr.split ":" key
                          ++ [PyStr.format_02x a; PyStr.format_02x b; PyStr.format_02x c]).
Proof.
  intros w.
  destruct (random_mac_shape w) as (key & a & b & c & Hkey & (Ha & Hb & Hc) & Hrun).
  eexists _, key, a, b, c. rewrite Hrun.
  split; [reflexivity |]. split; [| split; [exact Hkey | split; [lia | reflexivity]]].
  exists (PyStr.split ":" key
          ++ [PyStr.format_02x a; PyStr.format_02x b; PyStr.format_02x c])%list.
  assert (Hsplit : length (PyStr.split ":" key) = 3%nat /\ Forall hex_pair (PyStr.split ":" key)).
  { simpl in Hkey.
    destruct Hkey as [<- | [<- | [<- | []]]];
      (split; [reflexivity | repeat constructor; apply hex_pair_b_sound; reflexivity]). }
  destruct Hsplit as [Hlen Hpairs].
  split; [| split; [| reflexivity]].
  - rewrite length_app, Hlen. reflexivity.
  - apply Forall_app. split; [exact Hpairs |].
    repeat constructor; now apply format_02x_hex_pair.
Qed.

(** C10. The first three fields of every address returned by
    [random_mac], put in upper case, are a key of [VENDOR_PREFIXES]; so
    [get_vendor] of a generated address is "Dell", "Cisco" or "Private"
    and never "Unknown". *)
Theorem random_mac_vendor_known :
  forall w, exists mac,
    fst (random_mac w) = Ok mac /\
    In (PyStr.join ":" (take 3 (PyStr.split ":" (PyStr.upper mac))))
       (dict_keys VENDOR_PREFIXES) /\
    In (get_vendor mac) ["Dell"; "Cisco"; "Private"] /\
    get_vendor mac <> "Unknown".
Proof.
  intros w.
  destruct (random_mac_shape w) as (key & a & b & c & Hkey & _ & Hrun).
  eexists. rewrite Hrun. split; [reflexivity |].
  generalize (PyStr.format_02x a), (PyStr.format_02x b), (PyStr.format_02x c).
  intros fa fb fc. simpl in Hkey.
  destruct Hkey as [<- | [<- | [<- | []]]].
  - split; [now left |]. split; [now left | discriminate].
  - split; [right; now left |]. split; [right; now left | discriminate].
  - split; [right; right; now left |]. split; [right; right; now left | discriminate].
Qed.

(* ===================================================================== *)
(** ** The Mutator *)
(* ===================================================================== *)

Lemma run_all_frame cmds0 w :
  cmds (run_all cmds0 w) = (cmds w ++ cmds0)%list /\
  out (run_all cmds0 w) = out w /\
  file (run_all cmds0 w) = file w /\
  write_error (run_all cmds0 w) = write_error w /\
  sh (run_all cmds0 w) = sh w /\
  steps (run_all cmds0 w) = (length cmds0 + steps w)%nat.
Proof.
  revert w. induction cmds0 as [| cmd rest IH]; intros w.
  - simpl. rewrite app_nil_r. repeat split; reflexivity.
  - unfold run_all in *. simpl.
    destruct (IH (step (log_cmd cmd w))) as (Hc & Ho & Hf & He & Hs & Hn).
    rewrite Hc, Ho, Hf, He, Hs, Hn. simpl.
    rewrite <- app_assoc. repeat split; try reflexivity. lia.
Qed.

Section Mutator.
Context `{Runtime}.

(** A command that exits is not looked at any further: the loop goes on
    to the next one. *)
Lemma call_each_exits cmds0 w :
  (forall k cmd, In cmd cmds0 -> exists status stdout, sh w k cmd = Exited status stdout) ->
  call_each cmds0 w = (Ok tt, run_all cmds0 w).
Proof.
  revert w. induction cmds0 as [| cmd rest IH]; intros w Hexit.
  - reflexivity.
  - destruct (Hexit (steps w) cmd (or_introl eq_refl)) as (status & stdout & Hsh).
    simpl. unfold bind, subprocess_call. rewrite Hsh.
    apply IH. intros k c Hc. apply (Hexit k c). now right.
Qed.

(** [change_mac] never raises, runs some first part of its three commands
    and nothing else, and leaves the terminal and the backup file alone. *)
Lemma call_each_frame cmds0 w :
  exists n,
    snd (call_each cmds0 w) = run_all (take n cmds0) w /\
    (fst (call_each cmds0 w) = Ok tt \/ exists e, fst (call_each cmds0 w) = Raise e).
Proof.
  revert w. induction cmds0 as [| cmd rest IH]; intros w.
  - exists 0%nat. split; [reflexivity | now left].
  - simpl. unfold bind, subprocess_call.
    destruct (sh w (steps w) cmd) as [status stdout | msg |] eqn:Hsh.
    + destruct (IH (step (log_cmd cmd w))) as (n & Hw & Hr).
      exists (S n). split; [exact Hw | exact Hr].
    + exists 1%nat. split; [destruct rest; reflexivity | right; eauto].
    + exists 1%nat. split; [destruct rest; reflexivity | right; eauto].
Qed.

Lemma change_mac_frame interface new_mac w :
  exists ok n,
    change_mac interface new_mac w =
    (Ok ok, run_all (take n (change_mac_cmds interface new_mac)) w).
Proof.
  destruct (call_each_frame (change_mac_cmds interface new_mac) w) as (n & Hw & Hr).
  unfold change_mac, try_except, bind.
  destruct (call_each (change_mac_cmds interface new_mac) w) as [r w'].
  simpl in Hw, Hr. subst w'.
  destruct Hr as [-> | [e ->]].
  - exists true, n. reflexivity.
  - exists false, n. reflexivity.
Qed.

(** The only failure that [change_mac] sees: a command that cannot be
    started. *)
Lemma change_mac_spawn_failure interface new_mac w msg :
  sh w (steps w) (hd EmptyString (change_mac_cmds interface new_mac)) = SpawnFailed msg ->
  fst (change_mac interface new_mac w) = Ok false.
Proof.
  intros Hsh. unfold change_mac, try_except, bind. simpl in *.
  unfold bind, subprocess_call. now rewrite Hsh.
Qed.

(** C1. [change_mac] does not look at the exit status of its commands:
    when each of the three commands runs and exits with a status other
    than zero, all three are issued and [change_mac] returns [True]. *)
Theorem change_mac_true_when_commands_fail :
  forall interface new_mac w,
    (forall k cmd, In cmd (change_mac_cmds interface new_mac) ->
       exists status stdout, sh w k cmd = Exited status stdout /\ status <> 0%Z) ->
    change_mac interface new_mac w =
    (Ok true, run_all (change_mac_cmds interface new_mac) w).
Proof.
  intros interface new_mac w Hfail.
  unfold change_mac, try_except, bind.
  rewrite call_each_exits; [reflexivity |].
  intros k cmd Hin. destruct (Hfail k cmd Hin) as (status & stdout & Hsh & _). eauto.
Qed.

End Mutator.

(** On the host of a user without privileges every [ip link set] exits
    with status 2; [change_mac] answers [True] and the command line
    announces a successful change to the address it had before. *)
Lemma change_mac_true_when_commands_fail_witness :
  let w := Sample.host Sample.unprivileged_shell NoFile in
  let args := mkArgs (Some "eth0") (Some "00:14:22:aa:bb:cc") false false None in
  (forall k cmd, In cmd (@change_mac_cmds Sample.plain "eth0" "00:14:22:aa:bb:cc") ->
     exists status stdout, sh w k cmd = Exited status stdout /\ status <> 0%Z) /\
  fst (@change_mac Sample.plain "eth0" "00:14:22:aa:bb:cc" w) = Ok true /\
  out (snd (@cli Sample.plain 1 args w)) =
    [ "[✓] Interface: eth0";
      "[i] Current MAC: 11:22:33:44:55:66";
      "[✓] Original MAC backed up.";
      "[✓] MAC changed successfully!" +:+ PyStr.newline +:+
      "    11:22:33:44:55:66 → 11:22:33:44:55:66 (Unknown)" ].
Proof.
  intros w args.
  assert (Hfail : forall k cmd,
             In cmd (@change_mac_cmds Sample.plain "eth0" "00:14:22:aa:bb:cc") ->
             exists status stdout, sh w k cmd = Exited status stdout /\ status <> 0%Z).
  { intros k cmd Hin. exists 2%Z, EmptyString.
    simpl in Hin. destruct Hin as [<- | [<- | [<- | []]]]; split; (reflexivity || discriminate). }
  split; [exact Hfail |]. split.
  - rewrite (@change_mac_true_when_commands_fail Sample.plain "eth0" "00:14:22:aa:bb:cc" w Hfail).
    reflexivity.
  - vm_compute. reflexivity.
Defined.

(* ===================================================================== *)
(** ** The Rotator *)
(* ===================================================================== *)

Section Rotator.
Context `{Runtime}.

(** One run of [run_command]: the decoded output of a command that exits
    with status 0, and an exception for every other end of the command
    and for an output that does not decode. *)
Lemma run_command_run cmd w :
  run_command cmd w =
  (match sh w (steps w) cmd with
   | Exited 0 stdout =>
       if PyStr.utf8_valid stdout then Ok stdout else Raise UnicodeDecodeError
   | Exited status _ => Raise (CalledProcessError status)
   | SpawnFailed msg => Raise (OSError msg)
   | Interrupted => Raise KeyboardInterrupt
   end, step (log_cmd cmd w)).
Proof.
  unfold run_command, bind, check_output, decode.
  destruct (sh w (steps w) cmd) as [[| p | p] stdout | msg |]; try reflexivity.
  now destruct (PyStr.utf8_valid stdout).
Qed.

(** [get_mac] never raises: whatever goes wrong with the command or with
    the decoding of its output, the answer is [None]. *)
Lemma get_mac_run interface w :
  get_mac interface w =
  (Ok (match sh w (steps w) (show_cmd interface) with
       | Exited 0 stdout => scrape_address stdout
       | _ => None
       end),
   step (log_cmd (show_cmd interface) w)).
Proof.
  unfold get_mac, try_except, bind. fold (show_cmd interface).
  rewrite run_command_run. unfold scrape_address, ret.
  destruct (sh w (steps w) (show_cmd interface)) as [[| p | p] stdout | msg |];
    try reflexivity.
  now destruct (PyStr.utf8_valid stdout).
Qed.

Lemma get_mac_command_failed interface w status stdout :
  sh w (steps w) (show_cmd interface) = Exited status stdout ->
  status <> 0%Z ->
  get_mac interface w = (Ok None, step (log_cmd (show_cmd interface) w)).
Proof.
  intros Hsh Hstatus. rewrite get_mac_run, Hsh.
  destruct status; [congruence | reflexivity | reflexivity].
Qed.

Lemma get_mac_command_ok interface w stdout :
  sh w (steps w) (show_cmd interface) = Exited 0 stdout ->
  get_mac interface w =
  (Ok (scrape_address stdout), step (log_cmd (show_cmd interface) w)).
Proof.
  intros Hsh. now rewrite get_mac_run, Hsh.
Qed.

Lemma get_mac_total interface w :
  exists current,
    get_mac interface w = (Ok current, step (log_cmd (show_cmd interface) w)).
Proof.
  rewrite get_mac_run. eauto.
Qed.

(** A tick that finds no address ends in the [AttributeError] of
    [None.lower()], after the candidate has been drawn and before any
    command of the change. *)
Lemma rotate_tick_no_address fuel interface interval w w1 :
  get_mac interface w = (Ok None, w1) ->
  rotate_tick fuel interface interval w =
  (Raise AttributeError, step (step (step (step w1)))).
Proof.
  intros Hmac. unfold rotate_tick, bind. rewrite Hmac, random_mac_run. reflexivity.
Qed.

(** C2. The loop of [rotate_mac] is also ended by something other than an
    interruption: on a host that never signals an interruption, if the
    command that reads the address exits with a status other than zero,
    the first tick raises [AttributeError] out of [rotate_mac]; the only
    command run is the read, and the message of a stop by the user is not
    printed. *)
Theorem rotate_mac_ended_without_interrupt :
  forall fuel interface interval w status stdout,
    never_interrupted w ->
    sh w (steps w) (show_cmd interface) = Exited status stdout ->
    status <> 0%Z ->
    exists w',
      rotate_mac (S fuel) interface interval w = (Raise AttributeError, w') /\
      cmds w' = (cmds w ++ [show_cmd interface])%list /\
      out w' =
        (out w ++ [colored ("[⟳] Rotating MAC every " +:+ str_int interval
                           +:+ "s on " +:+ interface) "cyan"])%list.
Proof.
  intros fuel interface interval w status stdout _ Hsh Hstatus.
  eexists. unfold rotate_mac, bind, print, try_except. simpl rotate_loop.
  unfold bind at 1.
  erewrite rotate_tick_no_address
    by (apply get_mac_command_failed with (status := status) (stdout := stdout);
        [exact Hsh | exact Hstatus]).
  simpl. repeat split.
Qed.

End Rotator.

Lemma rotate_mac_ended_without_interrupt_witness :
  let w := Sample.host Sample.failing_shell NoFile in
  never_interrupted w /\
  fst (@rotate_mac Sample.plain 3 "eth0" 5 w) = Raise AttributeError /\
  out (snd (@rotate_mac Sample.plain 3 "eth0" 5 w)) = ["[⟳] Rotating MAC every 5s on eth0"].
Proof.
  intros w.
  assert (Hquiet : never_interrupted w) by (repeat split; intros; discriminate).
  destruct (@rotate_mac_ended_without_interrupt Sample.plain 2 "eth0" 5%Z w 1%Z EmptyString
              Hquiet eq_refl ltac:(discriminate)) as (w' & Hrun & _ & Hout).
  split; [exact Hquiet |]. rewrite Hrun. split; [reflexivity | exact Hout].
Defined.

(** A negative interval ends the loop as well: [time.sleep] refuses it
    with a [ValueError] after the first change. *)
Lemma rotate_mac_negative_interval :
  let w := Sample.host Sample.obliging_shell NoFile in
  fst (@rotate_mac Sample.plain 3 "eth0" (-5) w) = Raise ValueError /\
  cmds (snd (@rotate_mac Sample.plain 3 "eth0" (-5) w)) =
    [ "ip link show eth0"; "ip link set eth0 down";
      "ip link set eth0 address 00:40:96:02:03:04"; "ip link set eth0 up" ].
Proof. vm_compute. split; reflexivity. Qed.

(* ===================================================================== *)
(** ** The Backup Store *)
(* ===================================================================== *)

Section BackupStore.
Context `{Runtime}.

(** A backup on a mapping that can be written: the record of the
    interface is set, the rest of the mapping is written back as it was. *)
Lemma backup_mac_on_mapping interface mac w m :
  backup_mapping w = Some m ->
  write_error w = None ->
  backup_mac interface mac w =
  (Ok tt,
   emit (colored "[✓] Original MAC backed up." "yellow")
     (store (Holds (JObj (<[interface := backup_record mac (clock w (steps w))]> m)))
        (step w))).
Proof.
  intros Hmap Hwrite.
  unfold backup_mapping in Hmap.
  unfold backup_mac, try_except, bind, path_exists, json_load_file,
    datetime_now_str, lift, json_dump_file, print, ret.
  destruct (file w) as [| why | [| | | | | fields]] eqn:Hfile; try discriminate;
    injection Hmap as <-; simpl; rewrite ?Hfile; simpl; rewrite Hwrite; reflexivity.
Qed.

(** A backup never raises, and never runs a command. *)
Lemma backup_mac_total interface mac w :
  exists w', backup_mac interface mac w = (Ok tt, w') /\ cmds w' = cmds w.
Proof.
  unfold backup_mac, try_except, bind, path_exists, json_load_file,
    datetime_now_str, lift, json_dump_file, print, ret.
  destruct (file w) as [| [msg | msg] | [| | | | | fields]] eqn:Hfile; simpl;
    rewrite ?Hfile; simpl;
    try (eexists; split; reflexivity);
    destruct (write_error w) as [[msg | msg later] |]; simpl;
    eexists; split; reflexivity.
Qed.

(** The three ways of [restore_mac]. *)
Lemma restore_mac_load_failed interface w :
  file w = NoFile \/ (exists why, file w = Unreadable why) ->
  exists e,
    restore_mac interface w =
    (Ok tt, emit (colored ("[✗] Restore failed: " +:+ str_exn e) "red") w).
Proof.
  unfold restore_mac, try_except, bind, json_load_file, print.
  intros [-> | [[msg | msg] ->]]; eexists; reflexivity.
Qed.

Lemma restore_mac_no_record interface w m :
  file w = Holds (JObj m) ->
  m !! interface = None ->
  restore_mac interface w =
  (Ok tt, emit (colored "[✗] No backup found for this interface." "red") w).
Proof.
  intros Hfile Hnone.
  unfold restore_mac, try_except, bind, json_load_file, print, lift.
  rewrite Hfile. simpl. rewrite Hnone.
  rewrite bool_decide_eq_false_2 by (intros [v Hv]; discriminate).
  reflexivity.
Qed.

Lemma restore_mac_record interface w m entry mac :
  file w = Holds (JObj m) ->
  m !! interface = Some (JObj entry) ->
  entry !! "original_mac" = Some (JStr mac) ->
  restore_mac interface w =
  (_ <- change_mac interface mac ;;
   print (colored ("[✓] Restored MAC: " +:+ mac) "green")) w.
Proof.
  intros Hfile Hentry Hmac.
  unfold restore_mac, try_except, bind, json_load_file, print, lift.
  rewrite Hfile. simpl. rewrite Hentry.
  rewrite bool_decide_eq_true_2 by eauto.
  simpl. rewrite Hmac. simpl.
  destruct (change_mac_frame interface mac w) as (ok & n & ->). reflexivity.
Qed.

(** [restore_mac] never raises and always returns. *)
Lemma restore_mac_total interface w :
  exists w', restore_mac interface w = (Ok tt, w').
Proof.
  unfold restore_mac, try_except, bind, json_load_file, print, lift.
  destruct (file w) as [| [msg | msg] | doc]; try (eexists; reflexivity).
  destruct doc as [| b | lit | s | items | fields]; simpl; try (eexists; reflexivity).
  - destruct (PyStr.contains interface s); eexists; reflexivity.
  - destruct (existsb (py_eq_str interface) items); eexists; reflexivity.
  - destruct (fields !! interface) as [entry |] eqn:Hentry.
    + rewrite bool_decide_eq_true_2 by eauto.
      destruct entry as [| b | lit | s | items | entry]; simpl; try (eexists; reflexivity).
      destruct (entry !! "original_mac") as [original |]; simpl; [| eexists; reflexivity].
      destruct (change_mac_frame interface (py_str original) w) as (ok & n & ->).
      eexists; reflexivity.
    + rewrite bool_decide_eq_false_2 by (intros [v Hv]; discriminate).
      eexists; reflexivity.
Qed.

(** C3, as the code has it.  [restore_mac] never raises and always
    returns.  When the backup file is missing or cannot be loaded, it
    prints "Restore failed" with the text of the error and runs no
    command.  When the file holds a mapping without a record for the
    interface, it prints "No backup found for this interface." and runs
    no command.  When the mapping has a record for the interface whose
    [original_mac] is an address, it calls [change_mac] with exactly that
    address and then prints "Restored MAC" with it. *)
Theorem restore_mac_outcomes :
  forall interface w,
    (exists w', restore_mac interface w = (Ok tt, w')) /\
    (file w = NoFile \/ (exists why, file w = Unreadable why) ->
     exists e,
       restore_mac interface w =
       (Ok tt, emit (colored ("[✗] Restore failed: " +:+ str_exn e) "red") w) /\
       cmds (snd (restore_mac interface w)) = cmds w) /\
    (forall m,
       file w = Holds (JObj m) -> m !! interface = None ->
       restore_mac interface w =
       (Ok tt, emit (colored "[✗] No backup found for this interface." "red") w) /\
       cmds (snd (restore_mac interface w)) = cmds w) /\
    (forall m entry mac,
       file w = Holds (JObj m) ->
       m !! interface = Some (JObj entry) ->
       entry !! "original_mac" = Some (JStr mac) ->
       restore_mac interface w =
       (_ <- change_mac interface mac ;;
        print (colored ("[✓] Restored MAC: " +:+ mac) "green")) w).
Proof.
  intros interface w. split; [apply restore_mac_total |]. split; [| split].
  - intros Hfile. destruct (restore_mac_load_failed interface w Hfile) as (e & Hrun).
    exists e. rewrite Hrun. split; reflexivity.
  - intros m Hfile Hnone. rewrite (restore_mac_no_record interface w m Hfile Hnone).
    split; reflexivity.
  - intros m entry mac. apply restore_mac_record.
Qed.

(** C9. On every mapping that the Backup Store sees (a missing file is
    the empty mapping) and can write, two backups of one interface leave
    the mapping with one record under that interface, that of the second
    backup (the first is overwritten): a mapping whose [original_mac] is
    the address of the second backup, whose [timestamp] is the time of
    the second backup, and which has no other key.  Every other interface
    is as it was. *)
Theorem backup_mac_twice_keeps_latest :
  forall interface mac1 mac2 w m,
    backup_mapping w = Some m ->
    write_error w = None ->
    exists m2 stamp entry,
      backup_mapping (snd ((backup_mac interface mac1 ;; backup_mac interface mac2) w)) = Some m2 /\
      m2 = <[interface := backup_record mac2 stamp]> m /\
      m2 !! interface = Some (backup_record mac2 stamp) /\
      m2 !! interface = Some (JObj entry) /\
      entry !! "original_mac" = Some (JStr mac2) /\
      entry !! "timestamp" = Some (JStr stamp) /\
      stamp = clock w (S (steps w)) /\
      (forall key, key <> "original_mac" -> key <> "timestamp" -> entry !! key = None) /\
      (forall other, other <> interface -> m2 !! other = m !! other).
Proof.
  intros interface mac1 mac2 w m Hmap Hwrite.
  unfold bind at 1.
  rewrite (backup_mac_on_mapping interface mac1 w m Hmap Hwrite).
  erewrite backup_mac_on_mapping by first [exact Hwrite | reflexivity].
  eexists _, _, _. split; [reflexivity |].
  rewrite insert_insert_eq. split; [reflexivity |].
  split; [apply lookup_insert_eq |].
  split; [apply lookup_insert_eq |].
  split; [apply lookup_insert_eq |].
  split; [rewrite lookup_insert_ne by discriminate; apply lookup_insert_eq |].
  split; [reflexivity |].
  split.
  - intros key Hmac Hstamp.
    rewrite lookup_insert_ne by congruence.
    rewrite lookup_insert_ne by congruence.
    apply lookup_empty.
  - intros other Hother. now apply lookup_insert_ne.
Qed.

(** C5. On a mapping that the Backup Store sees and can write, a backup
    of an interface with an address followed by a restore of that
    interface calls [change_mac] with exactly that address; when the
    commands run to their end, the commands of the restore are the three
    commands of a change to that address. *)
Theorem backup_then_restore_round_trip :
  forall interface mac w m,
    backup_mapping w = Some m ->
    write_error w = None ->
    let w1 := snd (backup_mac interface mac w) in
    restore_mac interface w1 =
      (_ <- change_mac interface mac ;;
       print (colored ("[✓] Restored MAC: " +:+ mac) "green")) w1 /\
    (commands_exit w ->
     cmds (snd (restore_mac interface w1)) =
       (cmds w ++ change_mac_cmds interface mac)%list).
Proof.
  intros interface mac w m Hmap Hwrite w1.
  assert (Hw1 : w1 = emit (colored "[✓] Original MAC backed up." "yellow")
                       (store (Holds (JObj (<[interface := backup_record mac (clock w (steps w))]> m)))
                          (step w))).
  { unfold w1. now rewrite (backup_mac_on_mapping interface mac w m Hmap Hwrite). }
  assert (Hrestore : restore_mac interface w1 =
                     (_ <- change_mac interface mac ;;
                      print (colored ("[✓] Restored MAC: " +:+ mac) "green")) w1).
  { eapply restore_mac_record.
    - rewrite Hw1. reflexivity.
    - apply lookup_insert_eq.
    - apply lookup_insert_eq. }
  split; [exact Hrestore |].
  intros Hexit. rewrite Hrestore. unfold bind.
  unfold change_mac, try_except, bind.
  rewrite call_each_exits
    by (intros k cmd _; rewrite Hw1; apply (Hexit k cmd)).
  unfold ret, print. cbn [fst snd].
  change (cmds (run_all (change_mac_cmds interface mac) w1) =
          (cmds w ++ change_mac_cmds interface mac)%list).
  destruct (run_all_frame (change_mac_cmds interface mac) w1) as (Hcmds & _).
  rewrite Hcmds, Hw1. reflexivity.
Qed.

End BackupStore.

(** With no backup file, [restore_mac] prints the text of the error of
    [open], not "No backup found for this interface.". *)
Lemma restore_mac_missing_file_counterexample :
  let w := Sample.host Sample.obliging_shell NoFile in
  file w = NoFile /\
  out (snd (@restore_mac Sample.plain "eth0" w)) =
    ["[✗] Restore failed: [Errno 2] No such file or directory: 'mac_backup.json'"] /\
  ~ In (@colored Sample.plain "[✗] No backup found for this interface." "red")
       (out (snd (@restore_mac Sample.plain "eth0" w))).
Proof.
  intros w. split; [reflexivity |]. split; [vm_compute; reflexivity |].
  vm_compute. intros [Heq | []]. discriminate Heq.
Qed.

Lemma restore_mac_outcomes_witness :
  let w0 := Sample.host Sample.obliging_shell NoFile in
  let w1 := Sample.host Sample.obliging_shell Sample.backup_of_wlan0 in
  cmds (snd (@restore_mac Sample.plain "eth0" w0)) = [] /\
  out (snd (@restore_mac Sample.plain "eth0" w1)) =
    ["[✗] No backup found for this interface."] /\
  cmds (snd (@restore_mac Sample.plain "wlan0" w1)) =
    [ "ip link set wlan0 down";
      "ip link set wlan0 address 11:22:33:44:55:66";
      "ip link set wlan0 up" ].
Proof.
  intros w0 w1. split; [| split].
  - destruct (@restore_mac_outcomes Sample.plain "eth0" w0) as (_ & Hfailed & _).
    destruct (Hfailed (or_introl eq_refl)) as (e & _ & Hcmds). exact Hcmds.
  - destruct (@restore_mac_outcomes Sample.plain "eth0" w1) as (_ & _ & Hnone & _).
    destruct (Hnone _ eq_refl eq_refl) as (Hrun & _). now rewrite Hrun.
  - destruct (@restore_mac_outcomes Sample.plain "wlan0" w1) as (_ & _ & _ & Hfound).
    rewrite (Hfound _ _ "11:22:33:44:55:66" eq_refl eq_refl eq_refl).
    vm_compute. reflexivity.
Defined.

Lemma backup_mac_twice_keeps_latest_witness :
  let w := Sample.host Sample.obliging_shell Sample.backup_of_wlan0 in
  exists m2 entry,
    backup_mapping
      (snd ((@backup_mac Sample.plain "eth0" "aa:bb:cc:dd:ee:ff" ;;
             @backup_mac Sample.plain "eth0" "00:14:22:01:02:03") w)) = Some m2 /\
    m2 !! "eth0" = Some (JObj entry) /\
    entry !! "original_mac" = Some (JStr "00:14:22:01:02:03") /\
    entry !! "timestamp" = Some (JStr "2024-05-01 12:00:00.000000") /\
    m2 !! "wlan0" =
      Some (backup_record "11:22:33:44:55:66" "2024-04-30 09:30:00.000000").
Proof.
  intros w.
  destruct (@backup_mac_twice_keeps_latest Sample.plain
              "eth0" "aa:bb:cc:dd:ee:ff" "00:14:22:01:02:03" w _ eq_refl eq_refl)
    as (m2 & stamp & entry & Hmap & _ & _ & Heth0 & Hmac & Hstamp & Hclock & _ & Hother).
  exists m2, entry. split; [exact Hmap |]. split; [exact Heth0 |].
  split; [exact Hmac |]. split; [now rewrite Hstamp, Hclock |].
  rewrite (Hother "wlan0") by discriminate. reflexivity.
Defined.

Lemma backup_then_restore_round_trip_witness :
  let w := Sample.host Sample.obliging_shell NoFile in
  commands_exit w /\
  cmds (snd (@restore_mac Sample.plain "eth0"
               (snd (@backup_mac Sample.plain "eth0" "aa:bb:cc:dd:ee:ff" w)))) =
    [ "ip link set eth0 down";
      "ip link set eth0 address aa:bb:cc:dd:ee:ff";
      "ip link set eth0 up" ].
Proof.
  intros w.
  assert (Hexit : commands_exit w).
  { intros k cmd. unfold w, Sample.host, Sample.obliging_shell. simpl.
    destruct (String.prefix "ip link show" cmd); eauto. }
  split; [exact Hexit |].
  destruct (@backup_then_restore_round_trip Sample.plain
              "eth0" "aa:bb:cc:dd:ee:ff" w ∅ eq_refl eq_refl) as (_ & Hcmds).
  exact (Hcmds Hexit).
Defined.

(* ===================================================================== *)
(** ** Choosing an address that differs from the current one *)
(* ===================================================================== *)

(** Sequencing is associative, host by host. *)
Lemma bind_assoc {A B C} (m : M A) (f : A -> M B) (g : B -> M C) w :
  bind (bind m f) g w = bind m (fun a => bind (f a) g) w.
Proof.
  unfold bind. destruct (m w) as [[a | e |] w']; reflexivity.
Qed.

Lemma bind_returns {A B} (m : M A) (k : A -> M B) w a w' :
  m w = (Ok a, w') -> bind m k w = k a w'.
Proof. intros Hm. unfold bind. now rewrite Hm. Qed.

Lemma redraw_run mac w :
  redraw (mac, w) = (match fst (random_mac w) with Ok mac' => mac' | _ => mac end,
                     step (step (step (step w)))).
Proof. unfold redraw. simpl snd. rewrite random_mac_run. reflexivity. Qed.

Lemma candidate_succ n mac w :
  candidate (S n) mac w =
  candidate n (fst (redraw (mac, w))) (snd (redraw (mac, w))).
Proof.
  unfold candidate. rewrite Nat.iter_succ_r.
  now destruct (redraw (mac, w)).
Qed.

(** One turn of the loop. *)
Lemma regenerate_while_same_step fuel current mac w :
  regenerate_while_same (S fuel) current mac w =
  if String.eqb (PyStr.lower mac) (PyStr.lower current)
  then regenerate_while_same fuel current (fst (redraw (mac, w))) (snd (redraw (mac, w)))
  else (Ok mac, w).
Proof.
  cbn [regenerate_while_same].
  destruct (String.eqb (PyStr.lower mac) (PyStr.lower current)); [| reflexivity].
  rewrite redraw_run. unfold bind. rewrite random_mac_run. reflexivity.
Qed.

Lemma regenerate_while_same_last current mac w :
  regenerate_while_same 0 current mac w =
  if String.eqb (PyStr.lower mac) (PyStr.lower current)
  then (OutOfFuel, w)
  else (Ok mac, w).
Proof.
  cbn [regenerate_while_same].
  destruct (String.eqb (PyStr.lower mac) (PyStr.lower current)); reflexivity.
Qed.

(** After the loop the candidate differs from the current address. *)
Lemma regenerate_while_same_differs fuel current :
  forall mac w mac' w',
    regenerate_while_same fuel current mac w = (Ok mac', w') ->
    PyStr.lower mac' <> PyStr.lower current.
Proof.
  induction fuel as [| fuel IH]; intros mac w mac' w'.
  - rewrite regenerate_while_same_last.
    destruct (String.eqb_spec (PyStr.lower mac) (PyStr.lower current)) as [Heq | Hne].
    + discriminate.
    + intros [= <- <-]. exact Hne.
  - rewrite regenerate_while_same_step.
    destruct (String.eqb_spec (PyStr.lower mac) (PyStr.lower current)) as [Heq | Hne].
    + apply IH.
    + intros [= <- <-]. exact Hne.
Qed.

(** The loop returns the first candidate that differs, when there is one
    within the fuel. *)
Lemma regenerate_while_same_returns n current :
  forall mac w fuel,
    (forall k, (k < n)%nat ->
       PyStr.lower (fst (candidate k mac w)) = PyStr.lower current) ->
    PyStr.lower (fst (candidate n mac w)) <> PyStr.lower current ->
    (n <= fuel)%nat ->
    regenerate_while_same fuel current mac w =
    (Ok (fst (candidate n mac w)), snd (candidate n mac w)).
Proof.
  induction n as [| n IH]; intros mac w fuel Hsame Hdiff Hfuel.
  - change (candidate 0 mac w) with (mac, w) in *. cbn [fst snd] in *.
    destruct fuel;
      [rewrite regenerate_while_same_last | rewrite regenerate_while_same_step];
      destruct (String.eqb_spec (PyStr.lower mac) (PyStr.lower current)); easy.
  - destruct fuel as [| fuel]; [lia |].
    rewrite regenerate_while_same_step.
    pose proof (Hsame 0%nat ltac:(lia)) as Hfirst.
    change (candidate 0 mac w) with (mac, w) in Hfirst. cbn [fst] in Hfirst.
    destruct (String.eqb_spec (PyStr.lower mac) (PyStr.lower current)) as [_ | Hne];
      [| contradiction].
    rewrite candidate_succ. apply IH.
    + intros k Hk. rewrite <- candidate_succ. apply Hsame. lia.
    + rewrite <- candidate_succ. exact Hdiff.
    + lia.
Qed.

Section Choosing.
Context `{Runtime}.

Lemma rotate_tick_applies fuel interface interval w current w1 mac w2 :
  get_mac interface w = (Ok (Some current), w1) ->
  (candidate <- random_mac ;; regenerate_while_same fuel current candidate) w1 = (Ok mac, w2) ->
  rotate_tick fuel interface interval w =
  (_ <- change_mac interface mac ;;
   print (colored ("[✓] Rotated MAC: " +:+ mac) "green") ;;
   sleep interval) w2.
Proof.
  intros Hget Hpick. unfold rotate_tick.
  rewrite (bind_returns _ _ _ _ _ Hget). cbv beta iota.
  rewrite <- bind_assoc. now rewrite (bind_returns _ _ _ _ _ Hpick).
Qed.

Lemma one_shot_applies fuel args interface current w mac w2 :
  (candidate <- (if truthy_str (arg_mac args)
                 then ret (default EmptyString (arg_mac args))
                 else random_mac) ;;
   regenerate_while_same fuel current candidate) w = (Ok mac, w2) ->
  one_shot fuel args interface current w = apply_and_report interface current mac w2.
Proof.
  intros Hpick. unfold one_shot.
  rewrite <- bind_assoc. now rewrite (bind_returns _ _ _ _ _ Hpick).
Qed.

(** C6. The address that is applied is never the current one, letter
    case aside: the two are not case variants of each other.  The loop
    after the first candidate goes round on a candidate that is the
    current address in another case; it returns only a candidate that is
    no case variant of the current address, and it returns the first such
    candidate when one comes within the fuel.  A tick of the rotation and
    the one-shot change pass to [change_mac] exactly the address that the
    loop returns. *)
Theorem applied_address_differs_from_current :
  (forall fuel current mac w,
     PyStr.case_variant mac current ->
     regenerate_while_same (S fuel) current mac w =
     (mac' <- random_mac ;; regenerate_while_same fuel current mac') w) /\
  (forall fuel current mac w mac' w',
     regenerate_while_same fuel current mac w = (Ok mac', w') ->
     ~ PyStr.case_variant mac' current /\
     PyStr.lower mac' <> PyStr.lower current) /\
  (forall n current mac w fuel,
     (forall k, (k < n)%nat ->
        PyStr.case_variant (fst (candidate k mac w)) current) ->
     ~ PyStr.case_variant (fst (candidate n mac w)) current ->
     (n <= fuel)%nat ->
     regenerate_while_same fuel current mac w =
     (Ok (fst (candidate n mac w)), snd (candidate n mac w))) /\
  (forall fuel interface interval w current w1 mac w2,
     get_mac interface w = (Ok (Some current), w1) ->
     (candidate <- random_mac ;; regenerate_while_same fuel current candidate) w1
       = (Ok mac, w2) ->
     ~ PyStr.case_variant mac current /\
     rotate_tick fuel interface interval w =
     (_ <- change_mac interface mac ;;
      print (colored ("[✓] Rotated MAC: " +:+ mac) "green") ;;
      sleep interval) w2) /\
  (forall fuel args interface current w mac w2,
     (candidate <- (if truthy_str (arg_mac args)
                    then ret (default EmptyString (arg_mac args))
                    else random_mac) ;;
      regenerate_while_same fuel current candidate) w = (Ok mac, w2) ->
     ~ PyStr.case_variant mac current /\
     one_shot fuel args interface current w = apply_and_report interface current mac w2).
Proof.
  assert (Hdiffers : forall fuel current mac w mac' w',
             regenerate_while_same fuel current mac w = (Ok mac', w') ->
             ~ PyStr.case_variant mac' current).
  { intros fuel current mac w mac' w' Hrun Hcase.
    apply (regenerate_while_same_differs fuel current mac w mac' w' Hrun).
    now apply lower_case_variant. }
  split; [| split; [| split; [| split]]].
  - intros fuel current mac w Hcase. cbn [regenerate_while_same].
    rewrite (lower_case_variant mac current Hcase), String.eqb_refl. reflexivity.
  - intros fuel current mac w mac' w' Hrun. split.
    + now apply (Hdiffers fuel current mac w mac' w').
    + now apply (regenerate_while_same_differs fuel current mac w mac' w').
  - intros n current mac w fuel Hsame Hdiff Hfuel.
    apply regenerate_while_same_returns.
    + intros k Hk. now apply lower_case_variant, Hsame.
    + intros Heq. now apply Hdiff, case_variant_lower.
    + exact Hfuel.
  - intros fuel interface interval w current w1 mac w2 Hget Hpick. split.
    + unfold bind in Hpick. rewrite random_mac_run in Hpick.
      now apply Hdiffers in Hpick.
    + now apply rotate_tick_applies with (current := current) (w1 := w1).
  - intros fuel args interface current w mac w2 Hpick. split.
    + unfold bind in Hpick.
      destruct (truthy_str (arg_mac args)).
      * now apply Hdiffers in Hpick.
      * rewrite random_mac_run in Hpick.
        now apply Hdiffers in Hpick.
    + now apply one_shot_applies.
Qed.

End Choosing.

(** On the sample host: a candidate that is the current address in lower
    case is drawn again, and the next draw is returned; a tick applies a
    first candidate that differs from the address read; a candidate equal
    to the current address is drawn again until one differs (here the
    second draw); and an address given on the command line that is the
    current one in another case is replaced by a random one. *)
Lemma applied_address_differs_from_current_witness :
  let w := Sample.host Sample.obliging_shell NoFile in
  let args := mkArgs (Some "eth0") (Some "ac:de:48:03:04:05") false false None in
  PyStr.case_variant "ac:de:48:03:04:05" "AC:DE:48:03:04:05" /\
  "ac:de:48:03:04:05" <> "AC:DE:48:03:04:05" /\
  fst (regenerate_while_same 3 "AC:DE:48:03:04:05" "ac:de:48:03:04:05" w) =
    Ok "00:14:22:01:02:03" /\
  ~ PyStr.case_variant "00:14:22:01:02:03" "AC:DE:48:03:04:05" /\
  ~ PyStr.case_variant "00:40:96:02:03:04" "11:22:33:44:55:66" /\
  cmds (snd (@rotate_tick Sample.plain 3 "eth0" 5 w)) =
    [ "ip link show eth0"; "ip link set eth0 down";
      "ip link set eth0 address 00:40:96:02:03:04"; "ip link set eth0 up" ] /\
  fst (regenerate_while_same 3 "00:14:22:01:02:03" "00:14:22:01:02:03" w) =
    Ok "00:40:96:05:06:07" /\
  @one_shot Sample.plain 3 args "eth0" "AC:DE:48:03:04:05" w =
    @apply_and_report Sample.plain "eth0" "AC:DE:48:03:04:05" "00:14:22:01:02:03"
      (snd (regenerate_while_same 3 "AC:DE:48:03:04:05" "ac:de:48:03:04:05" w)).
Proof.
  intros w args.
  destruct (@applied_address_differs_from_current Sample.plain)
    as (Hround & Hloop & Hreturns & Htick & Hshot).
  assert (Hcase : PyStr.case_variant "ac:de:48:03:04:05" "AC:DE:48:03:04:05").
  { repeat (constructor;
            [first [ now left
                   | right; right; split; reflexivity ] |]).
    constructor. }
  assert (Hrun : regenerate_while_same 3 "AC:DE:48:03:04:05" "ac:de:48:03:04:05" w =
                 (Ok "00:14:22:01:02:03",
                  snd (regenerate_while_same 3 "AC:DE:48:03:04:05" "ac:de:48:03:04:05" w))).
  { rewrite (Hround 2%nat "AC:DE:48:03:04:05" "ac:de:48:03:04:05" w Hcase).
    vm_compute. reflexivity. }
  split; [exact Hcase |]. split; [discriminate |].
  split; [now rewrite Hrun |].
  split; [exact (proj1 (Hloop _ _ _ _ _ _ Hrun)) |].
  destruct (Htick 3%nat "eth0" 5%Z w "11:22:33:44:55:66" _ "00:40:96:02:03:04" _
              eq_refl eq_refl) as (Hdiff & Htickrun).
  split; [exact Hdiff |]. split; [rewrite Htickrun; vm_compute; reflexivity |]. split.
  - rewrite (Hreturns 2%nat "00:14:22:01:02:03" "00:14:22:01:02:03" w 3%nat).
    + vm_compute. reflexivity.
    + intros k Hk. apply case_variant_lower.
      destruct k as [| [| k]]; [reflexivity | reflexivity | lia].
    + intros Hsame. apply lower_case_variant in Hsame. vm_compute in Hsame.
      discriminate Hsame.
    + lia.
  - exact (proj2 (Hshot 3%nat args "eth0" "AC:DE:48:03:04:05" w "00:14:22:01:02:03" _
                    Hrun)).
Defined.

(* ===================================================================== *)
(** ** The command line *)
(* ===================================================================== *)

Section CommandLine.
Context `{Runtime}.

(** An address that the format check refuses ends the run at once: one
    line of error, no command, no backup. *)
Lemma cli_rejects_malformed fuel args mac w :
  arg_mac args = Some mac ->
  mac <> EmptyString ->
  mac_format_match mac = false ->
  cli fuel args w =
  (Ok tt, emit (colored "[✗] Invalid MAC format! Use: 00:11:22:33:44:55" "red") w).
Proof.
  intros Harg Hmac Hbad. unfold cli. rewrite Harg.
  destruct mac as [| c mac]; [congruence |].
  change (truthy_str (Some (String c mac))) with true.
  change (default EmptyString (Some (String c mac))) with (String c mac).
  rewrite Hbad. reflexivity.
Qed.

(** The report of the one-shot change follows the answer of [change_mac]:
    "MAC change failed." exactly when it answers [False]. *)
Lemma apply_and_report_failed interface current new_mac w w' :
  change_mac interface new_mac w = (Ok false, w') ->
  apply_and_report interface current new_mac w =
  (Ok tt, emit (colored "[✗] MAC change failed." "red") w').
Proof.
  intros Hchange. unfold apply_and_report.
  now rewrite (bind_returns _ _ _ _ _ Hchange).
Qed.

End CommandLine.

Lemma cli_reports_spawn_failure :
  let w := Sample.host Sample.broken_shell NoFile in
  let args := mkArgs (Some "eth0") (Some "00:14:22:aa:bb:cc") false false None in
  out (snd (@cli Sample.plain 1 args w)) =
    [ "[✓] Interface: eth0";
      "[i] Current MAC: 11:22:33:44:55:66";
      "[✓] Original MAC backed up.";
      "[✗] MAC change failed." ].
Proof. vm_compute. reflexivity. Qed.

(** C4. The format check of the command line accepts an address that is
    not six pairs of hexadecimal digits joined by colons: the six pairs
    followed by a line feed.  The anchor [$] matches before a final line
    feed, so the run goes on and the command that sets the address
    carries the line feed. *)
Theorem mac_format_accepts_trailing_newline :
  let mac := "00:11:22:33:44:55" +:+ PyStr.newline in
  let args := mkArgs (Some "eth0") (Some mac) false false None in
  mac_format_match mac = true /\
  ~ six_hex_pairs mac /\
  cmds (snd (@cli Sample.plain 1 args (Sample.host Sample.obliging_shell NoFile))) =
    [ "ip link show eth0";
      "ip link set eth0 down";
      "ip link set eth0 address 00:11:22:33:44:55" +:+ PyStr.newline;
      "ip link set eth0 up";
      "ip link show eth0" ].
Proof.
  intros mac args. split; [reflexivity |]. split.
  - intros Hsix. apply six_hex_pairs_length in Hsix. discriminate Hsix.
  - vm_compute. reflexivity.
Qed.

(* ===================================================================== *)
(** ** The program never changes the answers of the host *)
(* ===================================================================== *)

Lemma same_host_refl w : same_host w w.
Proof. repeat split. Qed.

Lemma same_host_trans w1 w2 w3 : same_host w1 w2 -> same_host w2 w3 -> same_host w1 w3.
Proof.
  unfold same_host. intros (? & ? & ? & ? & ? & ?) (? & ? & ? & ? & ? & ?).
  repeat split; congruence.
Qed.

Lemma keeps_ret {A} (a : A) : keeps_host (ret a).
Proof. intros w. apply same_host_refl. Qed.

Lemma keeps_raise {A} e : keeps_host (@raise A e).
Proof. intros w. apply same_host_refl. Qed.

Lemma keeps_out_of_fuel {A} : keeps_host (@out_of_fuel A).
Proof. intros w. apply same_host_refl. Qed.

Lemma keeps_lift {A} (r : Res A) : keeps_host (lift r).
Proof. intros w. apply same_host_refl. Qed.

Lemma keeps_print text : keeps_host (print text).
Proof. intros w. repeat split. Qed.

Lemma keeps_check_output cmd : keeps_host (check_output cmd).
Proof.
  intros w. unfold check_output.
  destruct (sh w (steps w) cmd) as [[| p | p] stdout | msg |]; repeat split.
Qed.

Lemma keeps_subprocess_call cmd : keeps_host (subprocess_call cmd).
Proof.
  intros w. unfold subprocess_call.
  destruct (sh w (steps w) cmd); repeat split.
Qed.

Lemma keeps_choice seq : keeps_host (choice seq).
Proof. intros w. unfold choice. destruct seq; repeat split. Qed.

Lemma keeps_randint lo hi : keeps_host (randint lo hi).
Proof. intros w. repeat split. Qed.

Lemma keeps_datetime_now_str : keeps_host datetime_now_str.
Proof. intros w. repeat split. Qed.

Lemma keeps_decode bytes : keeps_host (decode bytes).
Proof. intros w. unfold decode. destruct (PyStr.utf8_valid bytes); repeat split. Qed.

Lemma keeps_sleep `{Runtime} secs : keeps_host (sleep secs).
Proof.
  intros w. unfold sleep.
  destruct (secs <? 0)%Z; [| destruct (sleep_max <? secs)%Z;
                             [| destruct (sigint w (steps w))]]; repeat split.
Qed.

Lemma keeps_int_input prompt : keeps_host (int_input prompt).
Proof. intros w. unfold int_input. destruct (stdin w (steps w)); repeat split. Qed.

Lemma keeps_path_exists : keeps_host path_exists.
Proof. intros w. repeat split. Qed.

Lemma keeps_json_load_file : keeps_host json_load_file.
Proof.
  intros w. unfold json_load_file. destruct (file w) as [| [msg | msg] | doc]; repeat split.
Qed.

Lemma keeps_json_dump_file data : keeps_host (json_dump_file data).
Proof.
  intros w. unfold json_dump_file.
  destruct (write_error w) as [[msg | msg later] |]; repeat split.
Qed.

Lemma keeps_bind {A B} (m : M A) (k : A -> M B) :
  keeps_host m -> (forall a, keeps_host (k a)) -> keeps_host (bind m k).
Proof.
  intros Hm Hk w. unfold bind. specialize (Hm w).
  destruct (m w) as [[a | e |] w1]; simpl in *; try exact Hm.
  apply same_host_trans with (w2 := w1); [exact Hm | apply Hk].
Qed.

Lemma keeps_try_except {A} catches (m : M A) (h : exn -> M A) :
  keeps_host m -> (forall e, keeps_host (h e)) -> keeps_host (try_except catches m h).
Proof.
  intros Hm Hh w. unfold try_except. specialize (Hm w).
  destruct (m w) as [[a | e |] w1]; simpl in *; try exact Hm.
  destruct (catches e); simpl; [| exact Hm].
  apply same_host_trans with (w2 := w1); [exact Hm | apply Hh].
Qed.

Create HintDb host.
#[local] Hint Resolve keeps_ret keeps_raise keeps_out_of_fuel keeps_lift keeps_print
  keeps_check_output keeps_decode keeps_subprocess_call keeps_choice keeps_randint
  keeps_datetime_now_str keeps_sleep keeps_int_input keeps_path_exists
  keeps_json_load_file keeps_json_dump_file : host.

(** Takes an action apart along its sequencing, handlers and branches,
    down to the primitive actions. *)
Ltac keeps :=
  repeat (intros;
          match goal with
          | |- keeps_host (bind _ _) => apply keeps_bind
          | |- keeps_host (try_except _ _ _) => apply keeps_try_except
          | |- keeps_host (if ?b then _ else _) => destruct b
          | |- keeps_host (match ?x with _ => _ end) => destruct x
          | |- keeps_host _ => solve [eauto with host]
          end).

Lemma keeps_random_mac : keeps_host random_mac.
Proof. unfold random_mac. keeps. Qed.

Lemma keeps_regenerate_while_same fuel current :
  forall mac, keeps_host (regenerate_while_same fuel current mac).
Proof.
  pose proof keeps_random_mac.
  induction fuel as [| fuel IH]; intros mac; cbn [regenerate_while_same]; keeps.
Qed.

Section HostKept.
Context `{Runtime}.

Lemma keeps_run_command cmd : keeps_host (run_command cmd).
Proof. unfold run_command. keeps. Qed.

Lemma keeps_get_mac interface : keeps_host (get_mac interface).
Proof. pose proof keeps_run_command. unfold get_mac. keeps. Qed.

Lemma keeps_detect_interfaces : keeps_host detect_interfaces.
Proof. pose proof keeps_run_command. unfold detect_interfaces. keeps. Qed.

Lemma keeps_call_each cmds0 : keeps_host (call_each cmds0).
Proof. induction cmds0 as [| cmd rest IH]; cbn [call_each]; keeps. Qed.

Lemma keeps_change_mac interface new_mac : keeps_host (change_mac interface new_mac).
Proof. pose proof keeps_call_each. unfold change_mac. keeps. Qed.

Lemma keeps_backup_mac interface mac : keeps_host (backup_mac interface mac).
Proof. unfold backup_mac. keeps. Qed.

Lemma keeps_restore_mac interface : keeps_host (restore_mac interface).
Proof. pose proof keeps_change_mac. unfold restore_mac. keeps. Qed.

Lemma keeps_rotate_tick fuel interface interval :
  keeps_host (rotate_tick fuel interface interval).
Proof.
  pose proof keeps_get_mac. pose proof keeps_random_mac.
  pose proof keeps_regenerate_while_same. pose proof keeps_change_mac.
  unfold rotate_tick. keeps.
Qed.

Lemma keeps_rotate_loop ticks fuel interface interval :
  keeps_host (rotate_loop ticks fuel interface interval).
Proof.
  pose proof keeps_rotate_tick.
  induction ticks as [| ticks IH]; cbn [rotate_loop]; keeps.
Qed.

Lemma keeps_rotate_mac fuel interface interval :
  keeps_host (rotate_mac fuel interface interval).
Proof. pose proof keeps_rotate_loop. unfold rotate_mac. keeps. Qed.

End HostKept.

(* ===================================================================== *)
(** ** How the rotation can end *)
(* ===================================================================== *)

Lemma never_interrupted_same_host w w' :
  same_host w w' -> never_interrupted w -> never_interrupted w'.
Proof.
  intros (Hsh & _ & _ & Hsig & Hin & _) (Hq1 & Hq2 & Hq3).
  unfold never_interrupted. rewrite Hsh, Hsig, Hin. auto.
Qed.

Lemma quiet_ret {A} (a : A) : interrupt_from_host (ret a).
Proof. intros w _. discriminate. Qed.

Lemma quiet_out_of_fuel {A} : interrupt_from_host (@out_of_fuel A).
Proof. intros w _. discriminate. Qed.

Lemma quiet_raise {A} e : e <> KeyboardInterrupt -> interrupt_from_host (@raise A e).
Proof. intros He w _ [= Heq]. contradiction. Qed.

Lemma quiet_print text : interrupt_from_host (print text).
Proof. intros w _. discriminate. Qed.

Lemma quiet_check_output cmd : interrupt_from_host (check_output cmd).
Proof.
  intros w (_ & Hsh & _). unfold check_output. specialize (Hsh (steps w) cmd).
  destruct (sh w (steps w) cmd) as [[| p | p] stdout | msg |]; simpl; congruence.
Qed.

Lemma quiet_subprocess_call cmd : interrupt_from_host (subprocess_call cmd).
Proof.
  intros w (_ & Hsh & _). unfold subprocess_call. specialize (Hsh (steps w) cmd).
  destruct (sh w (steps w) cmd); simpl; congruence.
Qed.

Lemma quiet_random_mac : interrupt_from_host random_mac.
Proof. intros w _. rewrite random_mac_run. discriminate. Qed.

Lemma quiet_sleep `{Runtime} secs : interrupt_from_host (sleep secs).
Proof.
  intros w (Hsig & _). unfold sleep. rewrite Hsig.
  destruct (secs <? 0)%Z; [| destruct (sleep_max <? secs)%Z]; discriminate.
Qed.

Lemma quiet_bind {A B} (m : M A) (k : A -> M B) :
  interrupt_from_host m -> keeps_host m -> (forall a, interrupt_from_host (k a)) ->
  interrupt_from_host (bind m k).
Proof.
  intros Hm Hkeep Hk w Hquiet. unfold bind.
  specialize (Hm w Hquiet). specialize (Hkeep w).
  destruct (m w) as [[a | e |] w1]; simpl in *; try congruence.
  apply Hk. now apply never_interrupted_same_host with (w := w).
Qed.

Lemma quiet_try_except {A} catches (m : M A) (h : exn -> M A) :
  interrupt_from_host m -> keeps_host m -> (forall e, interrupt_from_host (h e)) ->
  interrupt_from_host (try_except catches m h).
Proof.
  intros Hm Hkeep Hh w Hquiet. unfold try_except.
  specialize (Hm w Hquiet). specialize (Hkeep w).
  destruct (m w) as [[a | e |] w1]; simpl in *; try congruence.
  destruct (catches e); simpl; [| exact Hm].
  apply Hh. now apply never_interrupted_same_host with (w := w).
Qed.

Lemma quiet_regenerate_while_same fuel current :
  forall mac, interrupt_from_host (regenerate_while_same fuel current mac).
Proof.
  induction fuel as [| fuel IH]; intros mac; cbn [regenerate_while_same];
    destruct (String.eqb (PyStr.lower mac) (PyStr.lower current));
    auto using quiet_ret, quiet_out_of_fuel.
  apply quiet_bind; auto using quiet_random_mac, keeps_random_mac.
Qed.

Section RotationEnds.
Context `{Runtime}.

Lemma quiet_get_mac interface : interrupt_from_host (get_mac interface).
Proof. intros w _. rewrite get_mac_run. discriminate. Qed.

Lemma quiet_change_mac interface new_mac : interrupt_from_host (change_mac interface new_mac).
Proof.
  intros w _. destruct (change_mac_frame interface new_mac w) as (ok & n & ->).
  discriminate.
Qed.

Lemma quiet_rotate_tick fuel interface interval :
  interrupt_from_host (rotate_tick fuel interface interval).
Proof.
  unfold rotate_tick.
  apply quiet_bind; [apply quiet_get_mac | apply keeps_get_mac |]. intros current.
  apply quiet_bind; [apply quiet_random_mac | apply keeps_random_mac |]. intros mac.
  apply quiet_bind.
  - destruct current; [apply quiet_regenerate_while_same | now apply quiet_raise].
  - destruct current; [apply keeps_regenerate_while_same | apply keeps_raise].
  - intros mac'.
    apply quiet_bind; [apply quiet_change_mac | apply keeps_change_mac |]. intros _.
    apply quiet_bind; [apply quiet_print | apply keeps_print |]. intros _.
    apply quiet_sleep.
Qed.

Lemma quiet_rotate_loop ticks fuel interface interval :
  interrupt_from_host (rotate_loop ticks fuel interface interval).
Proof.
  induction ticks as [| ticks IH]; cbn [rotate_loop].
  - apply quiet_out_of_fuel.
  - apply quiet_bind; [apply quiet_rotate_tick | apply keeps_rotate_tick | intros _; exact IH].
Qed.

(** The loop itself has no way out: it never returns. *)
Lemma rotate_loop_never_returns ticks fuel interface interval w :
  fst (rotate_loop ticks fuel interface interval w) <> Ok tt.
Proof.
  revert w. induction ticks as [| ticks IH]; intros w; cbn [rotate_loop].
  - discriminate.
  - unfold bind.
    destruct (rotate_tick fuel interface interval w) as [[[] | e |] w1]; simpl;
      [apply IH | discriminate | discriminate].
Qed.

(** [rotate_mac] returns to its caller only after an interruption: on a
    host that never signals one it does not return. *)
Lemma rotate_mac_returns_only_on_interrupt fuel interface interval w :
  fst (rotate_mac fuel interface interval w) = Ok tt -> ~ never_interrupted w.
Proof.
  intros Hreturns Hquiet.
  unfold rotate_mac, bind, print, try_except in Hreturns. cbv beta iota in Hreturns.
  pose proof (rotate_loop_never_returns fuel fuel interface interval
                (emit (colored ("[⟳] Rotating MAC every " +:+ str_int interval
                                +:+ "s on " +:+ interface) "cyan") w)) as Hloop.
  pose proof (quiet_rotate_loop fuel fuel interface interval
                (emit (colored ("[⟳] Rotating MAC every " +:+ str_int interval
                                +:+ "s on " +:+ interface) "cyan") w) Hquiet) as Hnoint.
  destruct (rotate_loop fuel fuel interface interval _) as [[[] | e |] w1];
    simpl in *; try congruence.
  destruct e; simpl in *; congruence.
Qed.

End RotationEnds.

(* ===================================================================== *)
(** ** A backup file that cannot be loaded *)
(* ===================================================================== *)

Section UnreadableBackup.
Context `{Runtime}.

(** A backup over a file that exists but cannot be loaded is given up:
    the error is printed and the file is left as it is. *)
Lemma backup_mac_unreadable interface mac w why :
  file w = Unreadable why ->
  exists e,
    backup_mac interface mac w =
    (Ok tt, emit (colored ("[✗] Backup failed: " +:+ str_exn e) "red") w).
Proof.
  intros Hfile.
  unfold backup_mac, try_except, bind, path_exists, json_load_file, print.
  rewrite Hfile. cbv beta iota. rewrite Hfile.
  destruct why as [msg | msg]; eexists; reflexivity.
Qed.

(** So does a backup whose file cannot be opened for writing: the mapping
    on disk stays as it was. *)
Lemma backup_mac_write_refused interface mac w m msg :
  backup_mapping w = Some m ->
  write_error w = Some (OpenRefused msg) ->
  file (snd (backup_mac interface mac w)) = file w.
Proof.
  intros Hmap Hwrite. unfold backup_mapping in Hmap.
  unfold backup_mac, try_except, bind, path_exists, json_load_file,
    datetime_now_str, lift, json_dump_file, print, ret.
  destruct (file w) as [| why | [| | | | | fields]] eqn:Hfile; try discriminate;
    simpl; rewrite ?Hfile; simpl; rewrite Hwrite; simpl; now rewrite ?Hfile.
Qed.

(** A write that breaks off after the file was opened loses the mapping:
    the opening has emptied the file, and what is left cannot be loaded. *)
Lemma backup_mac_write_broken interface mac w m msg later :
  backup_mapping w = Some m ->
  write_error w = Some (DumpBroken msg later) ->
  backup_mac interface mac w =
  (Ok tt,
   emit (colored ("[✗] Backup failed: " +:+ str_exn (OSError msg)) "red")
     (store (Unreadable (NotJSON later)) (step w))).
Proof.
  intros Hmap Hwrite. unfold backup_mapping in Hmap.
  unfold backup_mac, try_except, bind, path_exists, json_load_file,
    datetime_now_str, lift, json_dump_file, print, ret.
  destruct (file w) as [| why | [| | | | | fields]] eqn:Hfile; try discriminate;
    simpl; rewrite ?Hfile; simpl; rewrite Hwrite; reflexivity.
Qed.

End UnreadableBackup.

(* ===================================================================== *)
(** ** More on the Inspector *)
(* ===================================================================== *)

Section InspectorFacts.
Context `{Runtime}.

Lemma detect_interfaces_run w :
  detect_interfaces w =
  (Ok (match sh w (steps w) list_cmd with
       | Exited 0 stdout => scrape_links stdout
       | _ => []
       end),
   step (log_cmd list_cmd w)).
Proof.
  unfold detect_interfaces, try_except, bind. fold list_cmd.
  rewrite run_command_run. unfold scrape_links, ret.
  destruct (sh w (steps w) list_cmd) as [[| p | p] stdout | msg |];
    try reflexivity.
  now destruct (PyStr.utf8_valid stdout).
Qed.

Lemma detect_interfaces_total w :
  exists found,
    detect_interfaces w = (Ok found, step (log_cmd list_cmd w)).
Proof. rewrite detect_interfaces_run. eauto. Qed.

(** X1. [get_mac] never raises and runs exactly one command, the one
    that shows the interface.  Whenever that command does not exit with
    status 0 (another status, a shell that cannot be started, an
    interruption from the keyboard) the answer is [None]. *)
Theorem get_mac_swallows_failures :
  forall interface w,
    (exists found,
       get_mac interface w = (Ok found, step (log_cmd (show_cmd interface) w))) /\
    ((forall stdout, sh w (steps w) (show_cmd interface) <> Exited 0 stdout) ->
     fst (get_mac interface w) = Ok None).
Proof.
  intros interface w. split; [apply get_mac_total |].
  intros Hfail. rewrite get_mac_run. cbn [fst].
  destruct (sh w _ _) as [[| p | p] stdout | msg |]; try reflexivity.
  now destruct (Hfail stdout).
Qed.

(** X2. [detect_interfaces] never raises and runs exactly one command,
    the one that lists the links.  When that command exits with status 0
    and its output decodes as UTF-8, the answer is what the pattern finds
    in the output; when it exits with status 0 and the output does not
    decode, the [UnicodeDecodeError] is swallowed like every other
    failure and the answer is the empty list; and so it is whenever the
    command does not exit with status 0. *)
Theorem detect_interfaces_swallows_failures :
  forall w,
    (exists found,
       detect_interfaces w = (Ok found, step (log_cmd list_cmd w))) /\
    (forall stdout,
       sh w (steps w) list_cmd = Exited 0 stdout ->
       PyStr.utf8_valid stdout = true ->
       fst (detect_interfaces w) =
       Ok (if IS_LINUX
           then re_findall "\d+: (\w+):" false stdout
           else re_findall "^(\w+):" true stdout)) /\
    (forall stdout,
       sh w (steps w) list_cmd = Exited 0 stdout ->
       PyStr.utf8_valid stdout = false ->
       fst (run_command list_cmd w) = Raise UnicodeDecodeError /\
       fst (detect_interfaces w) = Ok []) /\
    ((forall stdout, sh w (steps w) list_cmd <> Exited 0 stdout) ->
     fst (detect_interfaces w) = Ok []).
Proof.
  intros w. split; [apply detect_interfaces_total |].
  rewrite detect_interfaces_run, run_command_run. cbn [fst]. unfold scrape_links.
  split; [| split].
  - intros stdout Hsh Hvalid. now rewrite Hsh, Hvalid.
  - intros stdout Hsh Hvalid. now rewrite Hsh, Hvalid.
  - intros Hfail.
    destruct (sh w _ _) as [[| p | p] stdout | msg |]; try reflexivity.
    now destruct (Hfail stdout).
Qed.

End InspectorFacts.

Lemma get_mac_swallows_failures_witness :
  let w := Sample.host Sample.interrupted_shell NoFile in
  @get_mac Sample.plain "eth0" w = (Ok None, step (log_cmd "ip link show eth0" w)).
Proof.
  intros w.
  destruct (@get_mac_swallows_failures Sample.plain "eth0" w) as ((found & Hrun) & Hnone).
  rewrite Hrun. f_equal. f_equal.
  assert (Hfst : fst (@get_mac Sample.plain "eth0" w) = Ok None)
    by (apply Hnone; intros stdout; discriminate).
  rewrite Hrun in Hfst. now injection Hfst.
Defined.

Lemma detect_interfaces_swallows_failures_witness :
  fst (@detect_interfaces Sample.listing (Sample.host Sample.listing_shell NoFile))
    = Ok ["lo"; "eth0"] /\
  PyStr.utf8_valid Sample.ip_link_garbled = false /\
  fst (@detect_interfaces Sample.listing (Sample.host Sample.garbled_shell NoFile))
    = Ok [] /\
  fst (@detect_interfaces Sample.listing (Sample.host Sample.failing_shell NoFile))
    = Ok [].
Proof.
  split; [| split; [| split]].
  - destruct (@detect_interfaces_swallows_failures Sample.listing
                (Sample.host Sample.listing_shell NoFile)) as (_ & Hfound & _).
    rewrite (Hfound Sample.ip_link eq_refl eq_refl). vm_compute. reflexivity.
  - reflexivity.
  - destruct (@detect_interfaces_swallows_failures Sample.listing
                (Sample.host Sample.garbled_shell NoFile)) as (_ & _ & Hgarbled & _).
    apply (Hgarbled Sample.ip_link_garbled eq_refl eq_refl).
  - destruct (@detect_interfaces_swallows_failures Sample.listing
                (Sample.host Sample.failing_shell NoFile)) as (_ & _ & _ & Hnone).
    apply Hnone. intros stdout. discriminate.
Defined.

(* ===================================================================== *)
(** ** More on the Mutator *)
(* ===================================================================== *)

Section MutatorFacts.
Context `{Runtime}.

(** The loop over the commands ends well exactly when every command, at
    its turn, runs to its end. *)
Lemma call_each_ok_iff cmds0 :
  forall w,
    fst (call_each cmds0 w) = Ok tt <->
    (forall j, (j < length cmds0)%nat ->
       exists status stdout,
         sh w (steps w + j) (nth j cmds0 EmptyString) = Exited status stdout).
Proof.
  induction cmds0 as [| cmd rest IH]; intros w.
  - split; [intros _ j Hj; simpl in Hj; lia | reflexivity].
  - cbn [call_each]. unfold bind, subprocess_call.
    destruct (sh w (steps w) cmd) as [status stdout | msg |] eqn:Hsh.
    + rewrite IH. cbn [sh steps step log_cmd length].
      split; intros Hall j Hj.
      * destruct j as [| j].
        -- rewrite Nat.add_0_r. simpl. eauto.
        -- replace (steps w + S j)%nat with (S (steps w) + j)%nat by lia.
           apply (Hall j). lia.
      * replace (S (steps w) + j)%nat with (steps w + S j)%nat by lia.
        apply (Hall (S j)). simpl. lia.
    + split; [discriminate |]. intros Hall.
      destruct (Hall 0%nat ltac:(simpl; lia)) as (status & stdout & Hexit).
      rewrite Nat.add_0_r in Hexit. simpl in Hexit. congruence.
    + split; [discriminate |]. intros Hall.
      destruct (Hall 0%nat ltac:(simpl; lia)) as (status & stdout & Hexit).
      rewrite Nat.add_0_r in Hexit. simpl in Hexit. congruence.
Qed.


(** X3. [change_mac] returns [True] exactly when each of its three
    commands, at its turn, runs to its end; the exit statuses play no
    part. *)
Theorem change_mac_true_iff_commands_run :
  forall interface new_mac w,
    fst (change_mac interface new_mac w) = Ok true <->
    (forall j, (j < 3)%nat ->
       exists status stdout,
         sh w (steps w + j) (nth j (change_mac_cmds interface new_mac) EmptyString)
           = Exited status stdout).
Proof.
  intros interface new_mac w.
  change 3%nat with (length (change_mac_cmds interface new_mac)).
  rewrite <- call_each_ok_iff.
  unfold change_mac, try_except, bind.
  destruct (call_each (change_mac_cmds interface new_mac) w) as [[[] | e |] w'];
    simpl; split; congruence.
Qed.

(** X4. Nothing is rolled back: when the interface has been taken down
    and the command that sets the address does not run to its end,
    [change_mac] returns [False] and the command that brings the
    interface up again is never issued. *)
Theorem change_mac_leaves_interface_down :
  forall interface new_mac w status stdout,
    sh w (steps w) (nth 0 (change_mac_cmds interface new_mac) EmptyString)
      = Exited status stdout ->
    (forall status' stdout',
       sh w (S (steps w)) (nth 1 (change_mac_cmds interface new_mac) EmptyString)
         <> Exited status' stdout') ->
    exists w',
      change_mac interface new_mac w = (Ok false, w') /\
      cmds w' = (cmds w ++ take 2 (change_mac_cmds interface new_mac))%list.
Proof.
  intros interface new_mac w status stdout Hdown Hset. simpl in Hdown, Hset.
  unfold change_mac, try_except, bind. cbn [call_each change_mac_cmds].
  unfold bind, subprocess_call. rewrite Hdown. cbn [sh steps step log_cmd].
  destruct (sh w (S (steps w)) _) as [status' stdout' | msg |] eqn:Hsh.
  - now destruct (Hset status' stdout').
  - eexists. split; [reflexivity |]. simpl. now rewrite <- app_assoc.
  - eexists. split; [reflexivity |]. simpl. now rewrite <- app_assoc.
Qed.


End MutatorFacts.

Lemma change_mac_true_iff_commands_run_witness :
  fst (@change_mac Sample.plain "eth0" "00:14:22:aa:bb:cc"
         (Sample.host Sample.unprivileged_shell NoFile)) = Ok true /\
  fst (@change_mac Sample.plain "eth0" "00:14:22:aa:bb:cc"
         (Sample.host Sample.broken_shell NoFile)) <> Ok true.
Proof.
  split.
  - apply (@change_mac_true_iff_commands_run Sample.plain).
    intros j Hj. exists 2%Z, EmptyString.
    destruct j as [| [| [| j]]]; [reflexivity | reflexivity | reflexivity | lia].
  - intros Htrue.
    pose proof (proj1 (@change_mac_true_iff_commands_run Sample.plain
                         "eth0" "00:14:22:aa:bb:cc"
                         (Sample.host Sample.broken_shell NoFile)) Htrue) as Hrun.
    destruct (Hrun 0%nat ltac:(lia)) as (status & stdout & Hexit). discriminate Hexit.
Defined.

Lemma change_mac_leaves_interface_down_witness :
  let shell := fun (k : nat) (cmd : string) =>
                 if String.prefix "ip link set eth0 address" cmd
                 then SpawnFailed "[Errno 12] Cannot allocate memory"
                 else Exited 0 EmptyString in
  exists w',
    @change_mac Sample.plain "eth0" "00:14:22:aa:bb:cc" (Sample.host shell NoFile)
      = (Ok false, w') /\
    cmds w' = ["ip link set eth0 down"; "ip link set eth0 address 00:14:22:aa:bb:cc"].
Proof.
  intros shell.
  destruct (@change_mac_leaves_interface_down Sample.plain "eth0" "00:14:22:aa:bb:cc"
              (Sample.host shell NoFile) 0%Z EmptyString eq_refl
              ltac:(intros status' stdout'; discriminate))
    as (w' & Hrun & Hcmds).
  exists w'. split; [exact Hrun | exact Hcmds].
Defined.

(* ===================================================================== *)
(** ** More on the Backup Store *)
(* ===================================================================== *)

Section BackupFacts.
Context `{Runtime}.

(** X6. [backup_mac] never raises, runs no command and prints exactly one
    line.  What becomes of the backup file is one of three things.  It is
    left as it was, when it held no mapping (it could not be loaded, or
    held another document) or could not be opened for writing.  It holds
    the old mapping with the record of the interface set to the address
    and the time of the call, when it was missing or held a mapping and
    the write went through.  Or it is lost: when the write breaks off
    after the file was opened, the opening has emptied the file, the
    line printed is the failure, and what is left cannot be loaded. *)
Theorem backup_mac_never_raises :
  forall interface mac w,
    exists w' line,
      backup_mac interface mac w = (Ok tt, w') /\
      cmds w' = cmds w /\
      out w' = (out w ++ [line])%list /\
      (((backup_mapping w = None \/
         exists msg, write_error w = Some (OpenRefused msg)) /\
        file w' = file w) \/
       (exists m,
          backup_mapping w = Some m /\ write_error w = None /\
          file w' =
            Holds (JObj (<[interface := backup_record mac (clock w (steps w))]> m))) \/
       (exists m msg later,
          backup_mapping w = Some m /\
          write_error w = Some (DumpBroken msg later) /\
          line = colored ("[✗] Backup failed: " +:+ str_exn (OSError msg)) "red" /\
          file w' = Unreadable (NotJSON later))).
Proof.
  intros interface mac w.
  destruct (backup_mapping w) as [m |] eqn:Hmap.
  - destruct (write_error w) as [[msg | msg later] |] eqn:Hwrite.
    + pose proof (backup_mac_write_refused interface mac w m msg Hmap Hwrite) as Hkept.
      destruct (backup_mac_total interface mac w) as (w' & Hrun & Hcmds).
      rewrite Hrun in Hkept. cbn [snd] in Hkept.
      assert (Hout : exists line, out w' = (out w ++ [line])%list).
      { revert Hrun. unfold backup_mapping in Hmap.
        unfold backup_mac, try_except, bind, path_exists, json_load_file,
          datetime_now_str, lift, json_dump_file, print, ret.
        destruct (file w) as [| why | [| | | | | fields]] eqn:Hfile; try discriminate;
          simpl; rewrite ?Hfile; simpl; rewrite Hwrite; simpl;
          intros [= <-]; eexists; reflexivity. }
      destruct Hout as (line & Hout).
      exists w', line. repeat (split; [assumption || reflexivity |]).
      left. split; [right; now exists msg | exact Hkept].
    + rewrite (backup_mac_write_broken interface mac w m msg later Hmap Hwrite).
      eexists _, _. split; [reflexivity |]. split; [reflexivity |].
      split; [reflexivity |]. right. right. exists m, msg, later.
      split; [reflexivity |]. split; [reflexivity |]. split; reflexivity.
    + rewrite (backup_mac_on_mapping interface mac w m Hmap Hwrite).
      eexists _, _. split; [reflexivity |]. split; [reflexivity |].
      split; [reflexivity |]. right. left. exists m.
      split; [reflexivity |]. split; reflexivity.
  - revert Hmap. unfold backup_mapping.
    unfold backup_mac, try_except, bind, path_exists, json_load_file,
      datetime_now_str, lift, json_dump_file, print, ret.
    destruct (file w) as [| [msg | msg] | [| b | lit | s | items | fields]] eqn:Hfile;
      try discriminate; intros _; simpl; rewrite ?Hfile; simpl;
      eexists _, _;
      (split; [reflexivity |]); (split; [reflexivity |]); (split; [reflexivity |]);
      left; (split; [now left |]); simpl; rewrite ?Hfile; reflexivity.
Qed.

(** X7. What a backup of one interface does to the record of another.
    When the write goes through, or the file cannot be opened for
    writing, the record is not disturbed: a restore of the other
    interface after it calls [change_mac] with the address that was
    stored for that interface.  When the write breaks off after the file
    was opened, the record is lost with the rest of the file: the restore
    of the other interface prints "Restore failed" and runs no
    command. *)
Theorem backup_mac_and_the_other_records :
  forall interface other mac w m entry address,
    interface <> other ->
    file w = Holds (JObj m) ->
    m !! other = Some (JObj entry) ->
    entry !! "original_mac" = Some (JStr address) ->
    let w1 := snd (backup_mac interface mac w) in
    ((forall msg later, write_error w <> Some (DumpBroken msg later)) ->
     restore_mac other w1 =
       (_ <- change_mac other address ;;
        print (colored ("[✓] Restored MAC: " +:+ address) "green")) w1) /\
    (forall msg later,
       write_error w = Some (DumpBroken msg later) ->
       restore_mac other w1 =
         (Ok tt,
          emit (colored ("[✗] Restore failed: " +:+ str_exn (JSONDecodeError later))
                        "red") w1)).
Proof.
  intros interface other mac w m entry address Hne Hfile Hentry Haddress w1.
  assert (Hmap : backup_mapping w = Some m) by (unfold backup_mapping; now rewrite Hfile).
  split.
  - intros Hwhole. destruct (write_error w) as [[msg | msg later] |] eqn:Hwrite.
    + apply restore_mac_record with (m := m) (entry := entry); try assumption.
      unfold w1. now rewrite (backup_mac_write_refused interface mac w m msg Hmap Hwrite).
    + now destruct (Hwhole msg later).
    + apply restore_mac_record
        with (m := <[interface := backup_record mac (clock w (steps w))]> m)
             (entry := entry); try assumption.
      * unfold w1. now rewrite (backup_mac_on_mapping interface mac w m Hmap Hwrite).
      * now rewrite lookup_insert_ne.
  - intros msg later Hwrite.
    assert (Hlost : file w1 = Unreadable (NotJSON later))
      by (unfold w1; now rewrite (backup_mac_write_broken interface mac w m msg later
                                    Hmap Hwrite)).
    unfold restore_mac, try_except, bind, json_load_file, print.
    now rewrite Hlost.
Qed.

(** X8. [restore_mac] runs no command unless the backup file holds a
    mapping whose record for the interface is itself a mapping with an
    [original_mac]: in every other case (no file, a file that cannot be
    loaded, a document that is not a mapping, no record, a record of
    another shape) it prints one line and does nothing else. *)
Theorem restore_mac_without_record_runs_nothing :
  forall interface w,
    (forall m entry original,
       file w = Holds (JObj m) ->
       m !! interface = Some (JObj entry) ->
       entry !! "original_mac" = Some original -> False) ->
    exists line, restore_mac interface w = (Ok tt, emit line w).
Proof.
  intros interface w Hnone.
  unfold restore_mac, try_except, bind, json_load_file, print, lift.
  destruct (file w) as [| [msg | msg] | doc] eqn:Hfile; try (eexists; reflexivity).
  destruct doc as [| b | lit | s | items | fields]; simpl; try (eexists; reflexivity).
  - destruct (PyStr.contains interface s); eexists; reflexivity.
  - destruct (existsb (py_eq_str interface) items); eexists; reflexivity.
  - destruct (fields !! interface) as [entry |] eqn:Hentry.
    + rewrite bool_decide_eq_true_2 by eauto.
      destruct entry as [| b | lit | s | items | entry]; simpl; try (eexists; reflexivity).
      destruct (entry !! "original_mac") as [original |] eqn:Horiginal; simpl;
        [| eexists; reflexivity].
      destruct (Hnone fields entry original eq_refl Hentry Horiginal).
    + rewrite bool_decide_eq_false_2 by (intros [v Hv]; discriminate).
      eexists; reflexivity.
Qed.

(** X9. [restore_mac] does not look at the answer of [change_mac]: when
    the record of the interface has an address, it returns after printing
    "Restored MAC" with that address, whatever became of the commands. *)
Theorem restore_mac_reports_whatever_happens :
  forall interface w m entry address,
    file w = Holds (JObj m) ->
    m !! interface = Some (JObj entry) ->
    entry !! "original_mac" = Some (JStr address) ->
    fst (restore_mac interface w) = Ok tt /\
    out (snd (restore_mac interface w)) =
      (out w ++ [colored ("[✓] Restored MAC: " +:+ address) "green"])%list.
Proof.
  intros interface w m entry address Hfile Hentry Haddress.
  rewrite (restore_mac_record interface w m entry address Hfile Hentry Haddress).
  destruct (change_mac_frame interface address w) as (ok & n & Hchange).
  rewrite (bind_returns _ _ _ _ _ Hchange). unfold print. cbn [fst snd].
  split; [reflexivity |].
  destruct (run_all_frame (take n (change_mac_cmds interface address)) w)
    as (_ & Hout & _).
  cbn [out emit]. now rewrite Hout.
Qed.

End BackupFacts.

Lemma backup_mac_and_the_other_records_witness :
  let w := Sample.host Sample.obliging_shell Sample.backup_of_wlan0 in
  let full := Sample.failing_disk Sample.disk_full w in
  cmds (snd (@restore_mac Sample.plain "wlan0"
               (snd (@backup_mac Sample.plain "eth0" "aa:bb:cc:dd:ee:ff" w)))) =
    [ "ip link set wlan0 down";
      "ip link set wlan0 address 11:22:33:44:55:66";
      "ip link set wlan0 up" ] /\
  cmds (snd (@restore_mac Sample.plain "wlan0"
               (snd (@backup_mac Sample.plain "eth0" "aa:bb:cc:dd:ee:ff" full)))) = [] /\
  out (snd (@restore_mac Sample.plain "wlan0"
              (snd (@backup_mac Sample.plain "eth0" "aa:bb:cc:dd:ee:ff" full)))) =
    [ "[✗] Backup failed: [Errno 28] No space left on device";
      "[✗] Restore failed: Expecting value: line 1 column 1 (char 0)" ].
Proof.
  intros w full.
  destruct (@backup_mac_and_the_other_records Sample.plain
              "eth0" "wlan0" "aa:bb:cc:dd:ee:ff" w _ _ "11:22:33:44:55:66"
              ltac:(discriminate) eq_refl eq_refl eq_refl) as (Hkept & _).
  destruct (@backup_mac_and_the_other_records Sample.plain
              "eth0" "wlan0" "aa:bb:cc:dd:ee:ff" full _ _ "11:22:33:44:55:66"
              ltac:(discriminate) eq_refl eq_refl eq_refl) as (_ & Hlost).
  rewrite Hkept by (intros msg later; discriminate).
  rewrite (Hlost _ _ eq_refl).
  vm_compute. repeat split; reflexivity.
Defined.

Lemma restore_mac_without_record_runs_nothing_witness :
  cmds (snd (@restore_mac Sample.plain "eth0"
               (Sample.host Sample.obliging_shell Sample.backup_list))) = [] /\
  cmds (snd (@restore_mac Sample.plain "eth0"
               (Sample.host Sample.obliging_shell Sample.backup_without_address))) = [].
Proof.
  split.
  - destruct (@restore_mac_without_record_runs_nothing Sample.plain "eth0"
                (Sample.host Sample.obliging_shell Sample.backup_list)) as (line & Hrun).
    + intros m entry original Hfile. discriminate Hfile.
    + now rewrite Hrun.
  - destruct (@restore_mac_without_record_runs_nothing Sample.plain "eth0"
                (Sample.host Sample.obliging_shell Sample.backup_without_address))
      as (line & Hrun).
    + intros m entry original Hfile Hentry Horiginal.
      injection Hfile as <-. vm_compute in Hentry. injection Hentry as <-.
      vm_compute in Horiginal. discriminate Horiginal.
    + now rewrite Hrun.
Defined.

Lemma restore_mac_reports_whatever_happens_witness :
  let w := Sample.host Sample.broken_shell Sample.backup_of_wlan0 in
  fst (@restore_mac Sample.plain "wlan0" w) = Ok tt /\
  out (snd (@restore_mac Sample.plain "wlan0" w)) = ["[✓] Restored MAC: 11:22:33:44:55:66"] /\
  cmds (snd (@restore_mac Sample.plain "wlan0" w)) = ["ip link set wlan0 down"].
Proof.
  intros w.
  destruct (@restore_mac_reports_whatever_happens Sample.plain "wlan0" w _ _
              "11:22:33:44:55:66" eq_refl eq_refl eq_refl) as (Hok & Hout).
  split; [exact Hok |]. split; [exact Hout |]. vm_compute. reflexivity.
Defined.

(* ===================================================================== *)
(** ** Who writes the backup file *)
(* ===================================================================== *)




(** Every primitive action but [json_dump_file] leaves the file alone. *)
Lemma file_decode bytes : frames same_file (decode bytes).
Proof. intros w. unfold decode. destruct (PyStr.utf8_valid bytes); reflexivity. Qed.

Lemma file_ret {A} (a : A) : frames same_file (ret a).
Proof. intros w. reflexivity. Qed.

Lemma file_raise {A} e : frames same_file (@raise A e).
Proof. intros w. reflexivity. Qed.

Lemma file_out_of_fuel {A} : frames same_file (@out_of_fuel A).
Proof. intros w. reflexivity. Qed.

Lemma file_lift {A} (r : Res A) : frames same_file (lift r).
Proof. intros w. reflexivity. Qed.

Lemma file_print text : frames same_file (print text).
Proof. intros w. reflexivity. Qed.

Lemma file_check_output cmd : frames same_file (check_output cmd).
Proof.
  intros w. unfold check_output.
  destruct (sh w (steps w) cmd) as [[| p | p] stdout | msg |]; reflexivity.
Qed.

Lemma file_subprocess_call cmd : frames same_file (subprocess_call cmd).
Proof. intros w. unfold subprocess_call. destruct (sh w (steps w) cmd); reflexivity. Qed.

Lemma file_choice seq : frames same_file (choice seq).
Proof. intros w. unfold choice. destruct seq; reflexivity. Qed.

Lemma file_randint lo hi : frames same_file (randint lo hi).
Proof. intros w. reflexivity. Qed.

Lemma file_sleep `{Runtime} secs : frames same_file (sleep secs).
Proof.
  intros w. unfold sleep.
  destruct (secs <? 0)%Z; [| destruct (sleep_max <? secs)%Z;
                             [| destruct (sigint w (steps w))]]; reflexivity.
Qed.

Lemma file_int_input prompt : frames same_file (int_input prompt).
Proof. intros w. unfold int_input. destruct (stdin w (steps w)); reflexivity. Qed.

Lemma file_json_load_file : frames same_file json_load_file.
Proof.
  intros w. unfold json_load_file. destruct (file w) as [| [msg | msg] | doc]; reflexivity.
Qed.

Create HintDb file.
#[local] Hint Resolve file_ret file_raise file_out_of_fuel file_lift file_print
  file_check_output file_decode file_subprocess_call file_choice file_randint file_sleep
  file_int_input file_json_load_file : file.




Section FileKept.
Context `{Runtime}.














End FileKept.


(* ===================================================================== *)
(** ** More on the Rotator *)
(* ===================================================================== *)

Section RotatorFacts.
Context `{Runtime}.



(** X13. A tick of the rotation does not look at the answer of
    [change_mac]: once an address has been chosen, the tick prints
    "Rotated MAC" with it and nothing else, whatever became of the
    commands. *)
Theorem rotate_tick_reports_whatever_happens :
  forall fuel interface interval w current w1 mac w2,
    get_mac interface w = (Ok (Some current), w1) ->
    (candidate <- random_mac ;; regenerate_while_same fuel current candidate) w1
      = (Ok mac, w2) ->
    out (snd (rotate_tick fuel interface interval w)) =
      (out w2 ++ [colored ("[✓] Rotated MAC: " +:+ mac) "green"])%list.
Proof.
  intros fuel interface interval w current w1 mac w2 Hget Hpick.
  rewrite (rotate_tick_applies fuel interface interval w current w1 mac w2 Hget Hpick).
  destruct (change_mac_frame interface mac w2) as (ok & n & Hchange).
  rewrite (bind_returns _ _ _ _ _ Hchange).
  destruct (run_all_frame (take n (change_mac_cmds interface mac)) w2) as (_ & Hout & _).
  unfold bind, print, sleep. cbn [fst snd].
  destruct (interval <? 0)%Z; [| destruct (sleep_max <? interval)%Z;
                                 [| destruct (sigint _ _)]];
    cbn [snd out emit step]; now rewrite Hout.
Qed.

End RotatorFacts.


Lemma rotate_tick_reports_whatever_happens_witness :
  let w := Sample.host Sample.broken_shell NoFile in
  out (snd (@rotate_tick Sample.plain 3 "eth0" 5 w)) = ["[✓] Rotated MAC: 00:40:96:02:03:04"] /\
  cmds (snd (@rotate_tick Sample.plain 3 "eth0" 5 w)) =
    ["ip link show eth0"; "ip link set eth0 down"].
Proof.
  intros w. split.
  - rewrite (@rotate_tick_reports_whatever_happens Sample.plain 3 "eth0" 5%Z w
               "11:22:33:44:55:66" _ "00:40:96:02:03:04" _ eq_refl eq_refl).
    reflexivity.
  - vm_compute. reflexivity.
Defined.

(* ===================================================================== *)
(** ** The prompt for an interface *)
(* ===================================================================== *)

Section PromptFacts.
Context `{Runtime}.

(** An answer that is refused costs one line of error and one turn of
    the loop. *)
Lemma prompt_choice_rejected fuel interfaces w :
  rejected_choice (length interfaces) (stdin w (steps w)) ->
  exists w',
    prompt_choice (S fuel) interfaces w = prompt_choice fuel interfaces w' /\
    steps w' = S (steps w) /\ stdin w' = stdin w /\ cmds w' = cmds w.
Proof.
  intros Hrejected. cbn [prompt_choice].
  unfold bind, try_except, int_input, print, ret.
  destruct Hrejected as [Hnan | (z & Hnum & Hrange)].
  - rewrite Hnan. simpl. eexists. repeat split.
  - rewrite Hnum.
    assert (Hout : ((1 <=? z)%Z && (z <=? Z.of_nat (length interfaces))%Z)%bool = false).
    { apply andb_false_iff. destruct Hrange; [left | right]; lia. }
    rewrite Hout. simpl. eexists. repeat split.
Qed.

Lemma prompt_choice_accepted fuel interfaces w z :
  stdin w (steps w) = Number z ->
  (1 <= z <= Z.of_nat (length interfaces))%Z ->
  prompt_choice (S fuel) interfaces w =
  (Ok (nth (Z.to_nat (z - 1)) interfaces EmptyString),
   step (emit (colored "Enter choice: " "yellow") w)).
Proof.
  intros Hnum Hrange. cbn [prompt_choice].
  unfold bind, try_except, int_input, print, ret. rewrite Hnum.
  assert (Hin : ((1 <=? z)%Z && (z <=? Z.of_nat (length interfaces))%Z)%bool = true).
  { apply andb_true_iff. split; lia. }
  now rewrite Hin.
Qed.

(** X14. The prompt asks again after every answer that is not a number
    or is out of range, and returns at the first answer [z] between 1 and
    the number of interfaces: the interface at place [z] of the list.  It
    runs no command. *)
Theorem prompt_choice_returns_selection :
  forall k fuel interfaces w z,
    (forall j, (j < k)%nat ->
       rejected_choice (length interfaces) (stdin w (steps w + j))) ->
    stdin w (steps w + k) = Number z ->
    (1 <= z <= Z.of_nat (length interfaces))%Z ->
    (k < fuel)%nat ->
    exists w',
      prompt_choice fuel interfaces w =
        (Ok (nth (Z.to_nat (z - 1)) interfaces EmptyString), w') /\
      In (nth (Z.to_nat (z - 1)) interfaces EmptyString) interfaces /\
      cmds w' = cmds w.
Proof.
  induction k as [| k IH]; intros fuel interfaces w z Hrejected Hnum Hrange Hfuel;
    (destruct fuel as [| fuel]; [lia |]).
  - rewrite Nat.add_0_r in Hnum.
    rewrite (prompt_choice_accepted fuel interfaces w z Hnum Hrange).
    eexists. split; [reflexivity |]. split; [apply nth_In; lia | reflexivity].
  - pose proof (Hrejected 0%nat ltac:(lia)) as Hfirst. rewrite Nat.add_0_r in Hfirst.
    destruct (prompt_choice_rejected fuel interfaces w Hfirst)
      as (w1 & Hstep & Hsteps & Hstdin & Hcmds).
    rewrite Hstep.
    destruct (IH fuel interfaces w1 z) as (w' & Hrun & Hin & Hcmds'); try lia.
    + intros j Hj. rewrite Hstdin, Hsteps.
      replace (S (steps w) + j)%nat with (steps w + S j)%nat by lia.
      apply Hrejected. lia.
    + rewrite Hstdin, Hsteps.
      now replace (S (steps w) + k)%nat with (steps w + S k)%nat by lia.
    + exists w'. split; [exact Hrun |]. split; [exact Hin | congruence].
Qed.

End PromptFacts.

Lemma prompt_choice_returns_selection_witness :
  let keys := fun k : nat =>
                match k with
                | 0%nat => NotANumber
                | 1%nat => Number 7
                | 2%nat => Number 0
                | _ => Number 2
                end in
  let w := Sample.host_io Sample.obliging_shell NoFile (fun _ => false) keys in
  fst (@prompt_choice Sample.plain 5 ["lo"; "eth0"] w) = Ok "eth0".
Proof.
  intros keys w.
  destruct (@prompt_choice_returns_selection Sample.plain 3 5 ["lo"; "eth0"] w 2%Z)
    as (w' & Hrun & _).
  - intros j Hj. destruct j as [| [| [| j]]]; [now left | right | right | lia].
    + exists 7%Z. split; [reflexivity | right; simpl; lia].
    + exists 0%Z. split; [reflexivity | left; lia].
  - reflexivity.
  - simpl. lia.
  - lia.
  - now rewrite Hrun.
Defined.

(* ===================================================================== *)
(** ** The command line, step by step *)
(* ===================================================================== *)

Lemma bind_print {B} text (k : unit -> M B) w :
  bind (print text) k w = k tt (emit text w).
Proof. reflexivity. Qed.

Lemma bind_ret {A B} (a : A) (k : A -> M B) w : bind (ret a) k w = k a w.
Proof. reflexivity. Qed.

Lemma bind_raises {A B} (m : M A) (k : A -> M B) w e w' :
  m w = (Raise e, w') -> bind m k w = (Raise e, w').
Proof. intros Hm. unfold bind. now rewrite Hm. Qed.

Section CommandLineSteps.
Context `{Runtime}.

Lemma after_notice_frame args w :
  steps (after_notice args w) = steps w /\
  sh (after_notice args w) = sh w /\
  stdin (after_notice args w) = stdin w /\
  cmds (after_notice args w) = cmds w /\
  file (after_notice args w) = file w /\
  write_error (after_notice args w) = write_error w /\
  clock (after_notice args w) = clock w /\
  rnd (after_notice args w) = rnd w.
Proof. unfold after_notice. destruct (no_action args); repeat split. Qed.

Lemma mac_arg_passes_check args :
  mac_arg_passes args ->
  truthy_str (arg_mac args)
  && negb (mac_format_match (default EmptyString (arg_mac args))) = false.
Proof. intros [-> | ->]; [reflexivity | apply andb_false_r]. Qed.

(** The start of a run whose address argument passes the check: the
    notice if no action was asked for, then the choice of the interface. *)
Lemma cli_start fuel args w :
  mac_arg_passes args ->
  cli fuel args w =
  (chosen <- choose_interface fuel args ;;
   match chosen with
   | None => ret tt
   | Some interface => cli_on_interface fuel args interface
   end) (after_notice args w).
Proof.
  intros Hpass. unfold cli, after_notice, no_action.
  rewrite (mac_arg_passes_check args Hpass).
  unfold bind at 1.
  destruct (negb _); reflexivity.
Qed.

Lemma choose_interface_given fuel args interface w :
  arg_interface args = Some interface ->
  interface <> EmptyString ->
  choose_interface fuel args w = (Ok (Some interface), w).
Proof.
  intros Harg Hne. unfold choose_interface. rewrite Harg.
  destruct interface; [congruence | reflexivity].
Qed.

Lemma cli_given fuel args interface w :
  arg_interface args = Some interface ->
  interface <> EmptyString ->
  mac_arg_passes args ->
  cli fuel args w = cli_on_interface fuel args interface (after_notice args w).
Proof.
  intros Harg Hne Hpass. rewrite (cli_start fuel args w Hpass).
  now rewrite (bind_returns _ _ _ _ _ (choose_interface_given fuel args interface _ Harg Hne)).
Qed.

Lemma print_menu_run interfaces :
  forall i w,
    exists w',
      print_menu i interfaces w = (Ok tt, w') /\
      steps w' = steps w /\ stdin w' = stdin w /\ sh w' = sh w /\
      cmds w' = cmds w /\ file w' = file w.
Proof.
  induction interfaces as [| iface rest IH]; intros i w; cbn [print_menu].
  - exists w. repeat split.
  - rewrite bind_print.
    destruct (IH (S i) (emit ("  " +:+ str_int (Z.of_nat i) +:+ ". " +:+ iface) w))
      as (w' & Hrun & Hrest).
    exists w'. split; [exact Hrun | exact Hrest].
Qed.

Lemma prompt_choice_end_of_input fuel interfaces w :
  stdin w (steps w) = EndOfInput ->
  prompt_choice (S fuel) interfaces w =
  (Raise EOFError, step (emit (colored "Enter choice: " "yellow") w)).
Proof.
  intros Heof. cbn [prompt_choice].
  unfold bind, try_except, int_input. now rewrite Heof.
Qed.

(** X15. The end of the input at the prompt is not handled: when no
    interface is given, interfaces are found and the input ends at the
    first prompt, [cli] ends with [EOFError] after the menu; the only
    command run is the one that lists the links, and the backup file is
    not touched. *)
Theorem cli_end_of_input_at_prompt :
  forall fuel args w stdout first others,
    truthy_str (arg_interface args) = false ->
    mac_arg_passes args ->
    sh w (steps w) list_cmd = Exited 0 stdout ->
    scrape_links stdout = first :: others ->
    stdin w (S (steps w)) = EndOfInput ->
    fst (cli (S fuel) args w) = Raise EOFError /\
    cmds (snd (cli (S fuel) args w)) = (cmds w ++ [list_cmd])%list /\
    file (snd (cli (S fuel) args w)) = file w.
Proof.
  intros fuel args w stdout first others Hnone Hpass Hsh Hfound Heof.
  rewrite (cli_start (S fuel) args w Hpass).
  destruct (after_notice_frame args w) as (Hsteps & Hshell & Hstdin & Hcmds & Hfile & _).
  set (w0 := after_notice args w) in *.
  assert (Hdetect : detect_interfaces w0 = (Ok (first :: others), step (log_cmd list_cmd w0))).
  { rewrite detect_interfaces_run, Hshell, Hsteps, Hsh. now rewrite Hfound. }
  unfold choose_interface. rewrite Hnone. cbv iota.
  rewrite bind_assoc.
  rewrite (bind_returns _ _ _ _ _ Hdetect). cbv beta iota.
  rewrite bind_assoc. rewrite bind_print. rewrite bind_assoc.
  destruct (print_menu_run (first :: others) 1
              (emit (colored "[*] Select interface:" "cyan") (step (log_cmd list_cmd w0))))
    as (w2 & Hmenu & Hsteps2 & Hstdin2 & _ & Hcmds2 & Hfile2).
  rewrite (bind_returns _ _ _ _ _ Hmenu).
  assert (Hprompt : prompt_choice (S fuel) (first :: others) w2 =
                    (Raise EOFError, step (emit (colored "Enter choice: " "yellow") w2))).
  { apply prompt_choice_end_of_input.
    rewrite Hstdin2, Hsteps2. cbn [stdin steps emit step log_cmd].
    now rewrite Hstdin, Hsteps. }
  rewrite bind_assoc. rewrite (bind_raises _ _ _ _ _ Hprompt).
  cbn [fst snd cmds file step emit]. rewrite Hcmds2, Hfile2.
  cbn [cmds file step emit log_cmd]. rewrite Hcmds, Hfile. repeat split.
Qed.

(** X16. When no interface is given and none is found (the command that
    lists the links does not exit with status 0, or the pattern finds
    nothing in its output), [cli] prints "No interfaces found!" and
    returns: it ran that one command, asked nothing and changed
    nothing. *)
Theorem cli_no_interfaces_found :
  forall fuel args w,
    truthy_str (arg_interface args) = false ->
    mac_arg_passes args ->
    (forall stdout, sh w (steps w) list_cmd = Exited 0 stdout -> scrape_links stdout = []) ->
    cli fuel args w =
    (Ok tt, emit (colored "[✗] No interfaces found!" "red")
              (step (log_cmd list_cmd (after_notice args w)))).
Proof.
  intros fuel args w Hnone Hpass Hempty.
  rewrite (cli_start fuel args w Hpass).
  destruct (after_notice_frame args w) as (Hsteps & Hshell & _).
  set (w0 := after_notice args w) in *.
  assert (Hdetect : detect_interfaces w0 = (Ok [], step (log_cmd list_cmd w0))).
  { rewrite detect_interfaces_run, Hshell, Hsteps.
    destruct (sh w (steps w) list_cmd) as [[| p | p] stdout | msg |] eqn:Hsh;
      try reflexivity.
    now rewrite (Hempty stdout eq_refl). }
  unfold choose_interface. rewrite Hnone. cbv iota.
  rewrite bind_assoc. rewrite (bind_returns _ _ _ _ _ Hdetect). cbv beta iota.
  reflexivity.
Qed.

(** X17. When the address of the interface cannot be read (the command
    does not exit with status 0, or the pattern finds no address in its
    output), [cli] prints "Could not fetch MAC" and returns, whatever the
    action asked for: it ran the one command that reads the address, took
    no backup and changed nothing. *)
Theorem cli_address_not_found :
  forall fuel args interface w,
    arg_interface args = Some interface ->
    interface <> EmptyString ->
    mac_arg_passes args ->
    (forall stdout,
       sh w (steps w) (show_cmd interface) = Exited 0 stdout ->
       truthy_str (scrape_address stdout) = false) ->
    cli fuel args w =
    (Ok tt, emit (colored ("[✗] Could not fetch MAC for " +:+ interface) "red")
              (step (log_cmd (show_cmd interface) (after_notice args w)))).
Proof.
  intros fuel args interface w Harg Hne Hpass Hnothing.
  rewrite (cli_given fuel args interface w Harg Hne Hpass).
  destruct (after_notice_frame args w) as (Hsteps & Hshell & _).
  set (w0 := after_notice args w) in *.
  assert (Hget : exists found,
             get_mac interface w0 = (Ok found, step (log_cmd (show_cmd interface) w0)) /\
             truthy_str found = false).
  { rewrite get_mac_run, Hshell, Hsteps.
    destruct (sh w (steps w) (show_cmd interface)) as [[| p | p] stdout | msg |] eqn:Hsh;
      try (exists None; split; reflexivity).
    eexists. split; [reflexivity |]. now apply Hnothing. }
  destruct Hget as (found & Hget & Hfalsy).
  unfold cli_on_interface. rewrite (bind_returns _ _ _ _ _ Hget).
  now rewrite Hfalsy.
Qed.

End CommandLineSteps.

Lemma cli_end_of_input_at_prompt_witness :
  let args := mkArgs None None false false None in
  let w := Sample.host Sample.listing_shell NoFile in
  fst (@cli Sample.listing 3 args w) = Raise EOFError /\
  cmds (snd (@cli Sample.listing 3 args w)) = ["ip link"].
Proof.
  intros args w.
  destruct (@cli_end_of_input_at_prompt Sample.listing 2 args w Sample.ip_link "lo" ["eth0"])
    as (Hraise & Hcmds & _).
  - reflexivity.
  - now left.
  - reflexivity.
  - vm_compute. reflexivity.
  - reflexivity.
  - split; [exact Hraise | exact Hcmds].
Defined.

Lemma cli_no_interfaces_found_witness :
  let args := mkArgs None None false true None in
  let w := Sample.host Sample.obliging_shell NoFile in
  fst (@cli Sample.plain 3 args w) = Ok tt /\
  cmds (snd (@cli Sample.plain 3 args w)) = ["ip link"] /\
  out (snd (@cli Sample.plain 3 args w)) = ["[✗] No interfaces found!"].
Proof.
  intros args w.
  rewrite (@cli_no_interfaces_found Sample.plain 3 args w eq_refl (or_introl eq_refl)
             ltac:(intros stdout _; unfold scrape_links;
                   destruct (PyStr.utf8_valid stdout); reflexivity)).
  repeat split.
Defined.

Lemma cli_address_not_found_witness :
  let args := mkArgs (Some "eth0") None true false None in
  let w := Sample.host Sample.failing_shell Sample.backup_of_wlan0 in
  fst (@cli Sample.plain 3 args w) = Ok tt /\
  cmds (snd (@cli Sample.plain 3 args w)) = ["ip link show eth0"] /\
  out (snd (@cli Sample.plain 3 args w)) = ["[✗] Could not fetch MAC for eth0"].
Proof.
  intros args w.
  rewrite (@cli_address_not_found Sample.plain 3 args "eth0" w eq_refl
             ltac:(discriminate) (or_introl eq_refl)
             ltac:(intros stdout Hsh; discriminate Hsh)).
  repeat split.
Defined.

(* ===================================================================== *)
(** ** Which action the command line takes *)
(* ===================================================================== *)

Section Actions.
Context `{Runtime}.

(** X18. The order of the actions.  With [--restore], the run is the same
    whatever [--random] and [--interval] are: only the restore is done.
    Without [--restore] and with an interval other than zero, an address
    given with [-m] that passes the check is not used at all: the run is
    the rotation. *)
Theorem cli_order_of_actions :
  forall fuel args w,
    (arg_restore args = true ->
     forall random interval,
       cli fuel args w =
       cli fuel (mkArgs (arg_interface args) (arg_mac args) true random interval) w) /\
    (arg_restore args = false ->
     truthy_int (arg_interval args) = true ->
     mac_arg_passes args ->
     cli fuel args w =
     cli fuel (mkArgs (arg_interface args) None false (arg_random args)
                 (arg_interval args)) w).
Proof.
  intros fuel [interface mac restore random interval] w. cbn [arg_interface arg_mac
    arg_restore arg_random arg_interval]. split.
  - intros -> random' interval'. unfold cli, choose_interface.
    cbn [arg_interface arg_mac arg_restore arg_random arg_interval].
    destruct (truthy_str mac), random, random'; reflexivity.
  - intros -> Hinterval Hpass. unfold cli, choose_interface.
    cbn [arg_interface arg_mac arg_restore arg_random arg_interval].
    pose proof (mac_arg_passes_check _ Hpass) as Hcheck.
    cbn [arg_mac] in Hcheck. rewrite Hcheck, Hinterval.
    cbn [truthy_str andb].
    destruct (truthy_str mac), random; reflexivity.
Qed.

(** X19. No action, or only empty ones: when [-m] is absent or empty,
    [--random] and [--restore] are not given and the interval is absent
    or zero, [cli] prints the notice and then runs exactly as with
    [--random] alone.  So [--interval 0] does not rotate. *)
Theorem cli_defaults_to_random :
  forall fuel args w,
    truthy_str (arg_mac args) = false ->
    arg_random args = false ->
    arg_restore args = false ->
    truthy_int (arg_interval args) = false ->
    cli fuel args w =
    (print (colored ("[!] No action specified. Defaulting to random MAC."
                     +:+ PyStr.newline) "yellow") ;;
     cli fuel (mkArgs (arg_interface args) None false true None)) w.
Proof.
  intros fuel [interface mac restore random interval] w.
  cbn [arg_interface arg_mac arg_restore arg_random arg_interval].
  intros Hmac -> -> Hinterval.
  unfold cli, choose_interface, one_shot.
  cbn [arg_interface arg_mac arg_restore arg_random arg_interval].
  rewrite Hmac, Hinterval. reflexivity.
Qed.

(** X20. The format check comes first.  An address given with [-m] that
    is not six pairs of hexadecimal digits joined by colons (a final line
    feed aside) ends the run with the one line "Invalid MAC format",
    whatever else was asked for: no command is run, no backup is taken,
    nothing is restored. *)
Theorem cli_checks_the_address_first :
  forall fuel args mac w,
    arg_mac args = Some mac ->
    mac <> EmptyString ->
    ~ six_hex_pairs mac ->
    (forall t, six_hex_pairs t -> mac <> t +:+ PyStr.newline) ->
    cli fuel args w =
    (Ok tt, emit (colored "[✗] Invalid MAC format! Use: 00:11:22:33:44:55" "red") w).
Proof.
  intros fuel args mac w Harg Hne Hnot Hnot'.
  apply cli_rejects_malformed with (mac := mac); try assumption.
  destruct (mac_format_match mac) eqn:Hmatch; [| reflexivity].
  apply mac_format_match_spec in Hmatch as [Hsix | (t & Hsix & ->)].
  - contradiction.
  - now destruct (Hnot' t Hsix).
Qed.

End Actions.

Lemma cli_order_of_actions_witness :
  let w := Sample.host Sample.obliging_shell Sample.backup_of_wlan0 in
  cmds (snd (@cli Sample.plain 3 (mkArgs (Some "wlan0") None true true (Some 30%Z)) w)) =
    [ "ip link show wlan0"; "ip link set wlan0 down";
      "ip link set wlan0 address 11:22:33:44:55:66"; "ip link set wlan0 up" ] /\
  @cli Sample.plain 2 (mkArgs (Some "eth0") (Some "00:14:22:aa:bb:cc") false false (Some 5%Z)) w =
  @cli Sample.plain 2 (mkArgs (Some "eth0") None false false (Some 5%Z)) w.
Proof.
  intros w. split.
  - rewrite (proj1 (@cli_order_of_actions Sample.plain 3
                      (mkArgs (Some "wlan0") None true true (Some 30%Z)) w)
               eq_refl false None).
    vm_compute. reflexivity.
  - apply (proj2 (@cli_order_of_actions Sample.plain 2
                    (mkArgs (Some "eth0") (Some "00:14:22:aa:bb:cc") false false (Some 5%Z)) w)
             eq_refl eq_refl (or_intror eq_refl)).
Defined.

Lemma cli_defaults_to_random_witness :
  let w := Sample.host Sample.obliging_shell NoFile in
  cmds (snd (@cli Sample.plain 3 (mkArgs (Some "eth0") (Some EmptyString) false false (Some 0%Z)) w)) =
    [ "ip link show eth0"; "ip link set eth0 down";
      "ip link set eth0 address AC:DE:48:03:04:05"; "ip link set eth0 up";
      "ip link show eth0" ].
Proof.
  intros w.
  rewrite (@cli_defaults_to_random Sample.plain 3
             (mkArgs (Some "eth0") (Some EmptyString) false false (Some 0%Z)) w
             eq_refl eq_refl eq_refl eq_refl).
  vm_compute. reflexivity.
Defined.

Lemma cli_checks_the_address_first_witness :
  let args := mkArgs (Some "wlan0") (Some "00-11-22-33-44-55") true false None in
  let w := Sample.host Sample.obliging_shell Sample.backup_of_wlan0 in
  @cli Sample.plain 3 args w =
  (Ok tt, emit "[✗] Invalid MAC format! Use: 00:11:22:33:44:55" w).
Proof.
  intros args w.
  apply (@cli_checks_the_address_first Sample.plain 3 args "00-11-22-33-44-55" w eq_refl).
  - discriminate.
  - intros Hsix.
    assert (Hmatch : mac_format_match "00-11-22-33-44-55" = true)
      by (apply mac_format_match_spec; now left).
    discriminate Hmatch.
  - intros t Hsix Heq.
    assert (Hmatch : mac_format_match (t +:+ PyStr.newline) = true)
      by (apply mac_format_match_spec; right; eauto).
    rewrite <- Heq in Hmatch. discriminate Hmatch.
Defined.

(* ===================================================================== *)
(** ** The one-shot change *)
(* ===================================================================== *)


Section OneShot.
Context `{Runtime}.

Lemma change_mac_exits interface new_mac w :
  commands_exit w ->
  change_mac interface new_mac w = (Ok true, run_all (change_mac_cmds interface new_mac) w).
Proof.
  intros Hexit. unfold change_mac, try_except, bind.
  rewrite call_each_exits; [reflexivity |].
  intros k cmd _. apply Hexit.
Qed.

Lemma apply_and_report_run interface current new_mac w :
  commands_exit w ->
  apply_and_report interface current new_mac w =
  (updated <- get_mac interface ;;
   match updated with
   | None => raise AttributeError
   | Some updated =>
       print (colored ("[✓] MAC changed successfully!" +:+ PyStr.newline +:+ "    "
                       +:+ current +:+ " → " +:+ updated
                       +:+ " (" +:+ get_vendor updated +:+ ")") "green")
   end) (run_all (change_mac_cmds interface new_mac) w).
Proof.
  intros Hexit. unfold apply_and_report.
  now rewrite (bind_returns _ _ _ _ _ (change_mac_exits interface new_mac w Hexit)).
Qed.

(** X21. What the one-shot change reports when its commands have run.
    The address in "MAC changed successfully" is the one read back from
    the interface, with the vendor of that address, not the one that was
    asked for; and when no address can be read back, the run ends with
    [AttributeError] although the three commands have been issued. *)
Theorem apply_and_report_shows_what_is_read_back :
  forall interface current new_mac w,
    commands_exit w ->
    let w3 := run_all (change_mac_cmds interface new_mac) w in
    (forall updated w4,
       get_mac interface w3 = (Ok (Some updated), w4) ->
       apply_and_report interface current new_mac w =
       (Ok tt,
        emit (colored ("[✓] MAC changed successfully!" +:+ PyStr.newline +:+ "    "
                       +:+ current +:+ " → " +:+ updated
                       +:+ " (" +:+ get_vendor updated +:+ ")") "green") w4)) /\
    (forall w4,
       get_mac interface w3 = (Ok None, w4) ->
       apply_and_report interface current new_mac w = (Raise AttributeError, w4)).
Proof.
  intros interface current new_mac w Hexit w3.
  rewrite (apply_and_report_run interface current new_mac w Hexit). fold w3.
  split.
  - intros updated w4 Hget. now rewrite (bind_returns _ _ _ _ _ Hget).
  - intros w4 Hget. now rewrite (bind_returns _ _ _ _ _ Hget).
Qed.

(** X22. An address given with [-m] that equals the current address,
    letter case aside, is not applied: the one-shot change goes on as if
    [--random] had been asked for, with a first candidate from
    [random_mac]. *)
Theorem one_shot_replaces_address_equal_to_current :
  forall fuel args interface current mac w,
    arg_mac args = Some mac ->
    mac <> EmptyString ->
    PyStr.lower mac = PyStr.lower current ->
    one_shot (S fuel) args interface current w =
    (candidate <- random_mac ;;
     new_mac <- regenerate_while_same fuel current candidate ;;
     apply_and_report interface current new_mac) w.
Proof.
  intros fuel args interface current mac w Harg Hne Hsame.
  unfold one_shot. rewrite Harg.
  destruct mac as [| c mac]; [congruence |].
  change (truthy_str (Some (String c mac))) with true.
  change (default EmptyString (Some (String c mac))) with (String c mac).
  cbv iota. rewrite bind_ret.
  unfold bind at 1. rewrite regenerate_while_same_step.
  rewrite Hsame, String.eqb_refl, redraw_run.
  unfold bind. rewrite random_mac_run. reflexivity.
Qed.


End OneShot.

Lemma apply_and_report_shows_what_is_read_back_witness :
  let w := Sample.host Sample.changing_shell NoFile in
  commands_exit w /\
  out (snd (@apply_and_report Sample.plain "wlan0" "11:22:33:44:55:66" "00:14:22:AA:BB:CC" w)) =
    [ "[✓] MAC changed successfully!" +:+ PyStr.newline +:+
      "    11:22:33:44:55:66 → 00:14:22:aa:bb:cc (Dell)" ] /\
  fst (@apply_and_report Sample.plain "eth0" "11:22:33:44:55:66" "00:14:22:aa:bb:cc"
         (Sample.host Sample.unprivileged_shell NoFile)) = Ok tt /\
  fst (@apply_and_report Sample.plain "eth0" "11:22:33:44:55:66" "00:14:22:aa:bb:cc"
         (Sample.host (fun _ _ => Exited 0 EmptyString) NoFile)) = Raise AttributeError.
Proof.
  intros w.
  assert (Hexit : commands_exit w).
  { intros k cmd. unfold w, Sample.host, Sample.changing_shell. simpl.
    destruct (String.prefix "ip link show" cmd); eauto. }
  split; [exact Hexit |]. split; [| split].
  - destruct (@apply_and_report_shows_what_is_read_back Sample.plain
                "wlan0" "11:22:33:44:55:66" "00:14:22:AA:BB:CC" w Hexit) as (Hfound & _).
    rewrite (Hfound "00:14:22:aa:bb:cc" _ eq_refl). reflexivity.
  - destruct (@apply_and_report_shows_what_is_read_back Sample.plain
                "eth0" "11:22:33:44:55:66" "00:14:22:aa:bb:cc"
                (Sample.host Sample.unprivileged_shell NoFile)) as (Hfound & _).
    + intros k cmd. unfold Sample.host, Sample.unprivileged_shell. simpl.
      destruct (String.prefix "ip link show" cmd); eauto.
    + now rewrite (Hfound "11:22:33:44:55:66" _ eq_refl).
  - destruct (@apply_and_report_shows_what_is_read_back Sample.plain
                "eth0" "11:22:33:44:55:66" "00:14:22:aa:bb:cc"
                (Sample.host (fun _ _ => Exited 0 EmptyString) NoFile)) as (_ & Hnone).
    + intros k cmd. simpl. eauto.
    + now rewrite (Hnone _ eq_refl).
Defined.

Lemma one_shot_replaces_address_equal_to_current_witness :
  let args := mkArgs (Some "eth0") (Some "AA:BB:CC:DD:EE:FF") false false None in
  let w := Sample.host Sample.obliging_shell NoFile in
  cmds (snd (@one_shot Sample.plain 3 args "eth0" "aa:bb:cc:dd:ee:ff" w)) =
    [ "ip link set eth0 down";
      "ip link set eth0 address 00:14:22:01:02:03";
      "ip link set eth0 up";
      "ip link show eth0" ].
Proof.
  intros args w.
  rewrite (@one_shot_replaces_address_equal_to_current Sample.plain 2 args
             "eth0" "aa:bb:cc:dd:ee:ff" "AA:BB:CC:DD:EE:FF" w eq_refl
             ltac:(discriminate) eq_refl).
  vm_compute. reflexivity.
Defined.


(* ===================================================================== *)
(** ** More on the generator and the vendor lookup *)
(* ===================================================================== *)

Lemma random_mac_returns_six_pairs w :
  exists mac,
    random_mac w = (Ok mac, step (step (step (step w)))) /\ six_hex_pairs mac.
Proof.
  destruct (random_mac_shape w) as (key & a & b & c & Hkey & (Ha & Hb & Hc) & Hrun).
  eexists. split; [exact Hrun |].
  exists (PyStr.split ":" key
          ++ [PyStr.format_02x a; PyStr.format_02x b; PyStr.format_02x c])%list.
  assert (Hsplit : length (PyStr.split ":" key) = 3%nat /\ Forall hex_pair (PyStr.split ":" key)).
  { simpl in Hkey.
    destruct Hkey as [<- | [<- | [<- | []]]];
      (split; [reflexivity | repeat constructor; apply hex_pair_b_sound; reflexivity]). }
  destruct Hsplit as [Hlen Hpairs].
  split; [| split; [| reflexivity]].
  - rewrite length_app, Hlen. reflexivity.
  - apply Forall_app. split; [exact Hpairs |].
    repeat constructor; now apply format_02x_hex_pair.
Qed.

(** X24. The generator and the check of the command line agree: every
    address that [random_mac] returns passes [mac_format_match], and it
    has seventeen characters. *)
Theorem random_mac_passes_the_format_check :
  forall w, exists mac,
    fst (random_mac w) = Ok mac /\
    mac_format_match mac = true /\
    String.length mac = 17%nat.
Proof.
  intros w. destruct (random_mac_returns_six_pairs w) as (mac & Hrun & Hsix).
  exists mac. rewrite Hrun. split; [reflexivity |]. split.
  - apply mac_format_match_spec. now left.
  - now apply six_hex_pairs_length.
Qed.

Section SplitJoin.
Import PyStr.

Lemma append_assoc (a b c : string) : (a +:+ b) +:+ c = a +:+ (b +:+ c).
Proof.
  induction a as [| x a IH]; [reflexivity |].
  change (String x ((a +:+ b) +:+ c) = String x (a +:+ (b +:+ c))).
  now rewrite IH.
Qed.

Lemma split_not_nil sep s : split sep s <> [].
Proof.
  destruct s as [| c s]; simpl; [discriminate |].
  destruct (Ascii.eqb c sep); [discriminate |].
  destruct (split sep s); discriminate.
Qed.

Lemma join_cons_char sep c h t :
  join sep (String c h :: t) = String c (join sep (h :: t)).
Proof. destruct t; reflexivity. Qed.

Lemma join_cons_two sep x y l :
  join sep (x :: y :: l) = x +:+ sep +:+ join sep (y :: l).
Proof. reflexivity. Qed.

(** Joining the fields of a split gives the string back. *)
Lemma join_split sep s : join (String sep EmptyString) (split sep s) = s.
Proof.
  induction s as [| c s IH]; [reflexivity |]. simpl.
  destruct (Ascii.eqb_spec c sep) as [-> | Hne].
  - pose proof (split_not_nil sep s) as Hnil.
    destruct (split sep s) as [| h t]; [congruence |].
    cbn [join]. simpl. now rewrite <- IH.
  - pose proof (split_not_nil sep s) as Hnil.
    destruct (split sep s) as [| h t]; [congruence |].
    rewrite join_cons_char. now rewrite IH.
Qed.

(** The first [n] fields, joined, are the head of the whole: either all
    of it, or followed by a separator. *)
Lemma join_take sep l :
  forall n, (1 <= n)%nat -> l <> [] ->
    join sep l = join sep (take n l) \/
    exists rest, join sep l = join sep (take n l) +:+ sep +:+ rest.
Proof.
  induction l as [| x l IH]; intros n Hn Hl; [congruence |].
  destruct n as [| n]; [lia |]. cbn [take].
  destruct l as [| y l].
  - left. now destruct n.
  - destruct n as [| n].
    + right. exists (join sep (y :: l)). reflexivity.
    + destruct (IH (S n) ltac:(lia) ltac:(discriminate)) as [Hall | (rest & Hrest)].
      * left. cbn [take] in *. rewrite !join_cons_two. now rewrite Hall.
      * right. exists rest. cbn [take] in *. rewrite !join_cons_two, Hrest.
        now rewrite !append_assoc.
Qed.

End SplitJoin.

Lemma dict_get_in d key default vendor :
  dict_get d key default = vendor -> vendor <> default -> In (key, vendor) d.
Proof.
  induction d as [| [k v] d IH]; simpl; [congruence |].
  destruct (String.eqb_spec k key) as [-> | Hne].
  - intros -> _. now left.
  - intros Hget Hdiff. right. now apply IH.
Qed.

(** X25. Which addresses have a vendor.  [get_vendor] returns a vendor
    name other than "Unknown" exactly for the addresses that, put in
    upper case, are a key of [VENDOR_PREFIXES] or begin with a key
    followed by a colon; the name is the one listed under that key.
    What follows the third field plays no part. *)
Theorem get_vendor_names_the_prefix :
  forall mac vendor,
    vendor <> "Unknown" ->
    (get_vendor mac = vendor <->
     exists key,
       In (key, vendor) VENDOR_PREFIXES /\
       (PyStr.upper mac = key \/ exists rest, PyStr.upper mac = key +:+ ":" +:+ rest)).
Proof.
  intros mac vendor Hknown. unfold get_vendor. split.
  - intros Hget. apply dict_get_in in Hget; [| exact Hknown].
    eexists. split; [exact Hget |].
    destruct (join_take ":" (PyStr.split ":" (PyStr.upper mac)) 3
                ltac:(lia) (split_not_nil _ _)) as [Hall | (rest & Hrest)].
    + left. now rewrite join_split in Hall.
    + right. exists rest. now rewrite join_split in Hrest.
  - intros (key & Hin & Hupper). simpl in Hin.
    destruct Hin as [[= <- <-] | [[= <- <-] | [[= <- <-] | []]]];
      destruct Hupper as [-> | (rest & ->)]; reflexivity.
Qed.

Lemma get_vendor_names_the_prefix_witness :
  get_vendor "ac:de:48" = "Private" /\
  get_vendor "00:40:96:zz" = "Cisco" /\
  get_vendor "00:40:9" <> "Cisco" /\
  get_vendor "0:14:22:00:14:22" <> "Dell".
Proof.
  split; [| split; [| split]].
  - apply (proj2 (get_vendor_names_the_prefix "ac:de:48" "Private" ltac:(discriminate))).
    exists "AC:DE:48". split; [right; right; now left | now left].
  - apply (proj2 (get_vendor_names_the_prefix "00:40:96:zz" "Cisco" ltac:(discriminate))).
    exists "00:40:96". split; [right; now left | right; now exists "ZZ"].
  - intros Hget.
    apply (proj1 (get_vendor_names_the_prefix "00:40:9" "Cisco" ltac:(discriminate)))
      in Hget as (key & Hin & Hupper).
    simpl in Hin. destruct Hin as [[= <-] | [[= <-] | [[= <-] | []]]];
      destruct Hupper as [Heq | (rest & Heq)]; discriminate Heq.
  - intros Hget.
    apply (proj1 (get_vendor_names_the_prefix "0:14:22:00:14:22" "Dell" ltac:(discriminate)))
      in Hget as (key & Hin & Hupper).
    simpl in Hin. destruct Hin as [[= <-] | [[= <-] | [[= <-] | []]]];
      destruct Hupper as [Heq | (rest & Heq)]; discriminate Heq.
Defined.

